(** * OAuth relier and sign-in mixin of fxa-content-server

    A shallow embedding of
    - [app/scripts/models/reliers/oauth.js] (the OAuth relier: parameter
      import, client-info cross validation, scope normalisation), and
    - [app/scripts/views/mixins/signin-mixin.js] (the shared [signIn]
      view method and its success / blocked handlers),
    together with the properties the specification states about them.

    Conventions.  A JavaScript string is a [string]; a character stands
    for one code unit in the range 0..255.  Arrays of strings are lists.
    A Backbone model is its attribute bag, a finite map from attribute
    names to values.  A promise chain is a computation in a state and
    error monad: rejection is the error, the settled value is the result. *)

From stdpp Require Import base option list strings gmap.
From Stdlib Require Import Ascii String.

Open Scope string_scope.

(** ** JavaScript strings *)

Module JsString.

(** The characters matched by [\s] and stripped by [String.prototype.trim]
    (ECMAScript WhiteSpace and LineTerminator), among code units 0..255:
    TAB, LF, VT, FF, CR, SPACE and NBSP. *)
Definition WhiteSpace (c : ascii) : bool :=
  bool_decide (nat_of_ascii c ∈ [9; 10; 11; 12; 13; 32; 160]).

Fixpoint trimStart (s : string) : string :=
  match s with
  | EmptyString => EmptyString
  | String c rest => if WhiteSpace c then trimStart rest else s
  end.

Fixpoint trimEnd (s : string) : string :=
  match s with
  | EmptyString => EmptyString
  | String c rest =>
      match trimEnd rest with
      | EmptyString => if WhiteSpace c then EmptyString else String c EmptyString
      | kept => String c kept
      end
  end.

(** [s.trim()] *)
Definition trim (s : string) : string := trimEnd (trimStart s).

(** [s.split(/\s+/g)].  The separator is a maximal run of white space;
    [cur] is the piece being read and [in_sep] tells that the previous
    character belonged to a separator.  A separator at the start or at
    the end of the string leaves an empty piece on that side. *)
Fixpoint split_loop (in_sep : bool) (cur : string) (s : string) : list string :=
  match s with
  | EmptyString => [cur]
  | String c rest =>
      if WhiteSpace c then
        if in_sep then split_loop true cur rest
        else cur :: split_loop true EmptyString rest
      else split_loop false (cur +:+ String c EmptyString) rest
  end.

Definition split_whitespace (s : string) : list string :=
  split_loop false EmptyString s.

(** [array.join(sep)] *)
Fixpoint join (sep : string) (l : list string) : string :=
  match l with
  | [] => EmptyString
  | [x] => x
  | x :: rest => x +:+ sep +:+ join sep rest
  end.

End JsString.

(** ** Underscore's array functions, on arrays of strings

    Each of them tests membership with [_.contains], that is with [===]. *)

Module Underscore.

Definition contains (array : list string) (item : string) : bool :=
  bool_decide (item ∈ array).

(** [_.without(array, item)]: every occurrence of [item] removed. *)
Definition without (array : list string) (item : string) : list string :=
  filter (λ value, value ≠ item) array.

(** [_.uniq(array)]: a value is pushed on [result] unless [result]
    already contains it. *)
Fixpoint uniq_loop (result array : list string) : list string :=
  match array with
  | [] => result
  | value :: rest =>
      if contains result value then uniq_loop result rest
      else uniq_loop (result ++ [value]) rest
  end.

Definition uniq (array : list string) : list string := uniq_loop [] array.

(** [_.union(a, b)] is [_.uniq] of the two arrays flattened. *)
Definition union (a b : list string) : list string := uniq (a ++ b).

(** [_.intersection(array, other)]: the values of [array], each once,
    that [other] contains, in the order of [array]. *)
Fixpoint intersection_loop (result array other : list string) : list string :=
  match array with
  | [] => result
  | item :: rest =>
      if contains result item then intersection_loop result rest other
      else if contains other item then intersection_loop (result ++ [item]) rest other
      else intersection_loop result rest other
  end.

Definition intersection (array other : list string) : list string :=
  intersection_loop [] array other.

End Underscore.

(** ** [lib/constants]: the values the OAuth relier reads

    The module lies outside the two files embedded here, so the relier
    is parameterised by the five constants it reads from it. *)

Class Constants := {
  OAUTH_CONTEXT : string;
  OAUTH_PROMPT_CONSENT : string;
  OAUTH_TRUSTED_PROFILE_SCOPE : string;
  OAUTH_TRUSTED_PROFILE_SCOPE_EXPANSION : list string;
  OAUTH_UNTRUSTED_ALLOWED_PERMISSIONS : list string
}.

(** ** The three helpers at the end of [oauth.js] *)

Definition replaceItemInArray (array : list string) (itemToReplace : string)
    (replaceWith : list string) : list string :=
  let without := Underscore.without array itemToReplace in
  if bool_decide (List.length without ≠ List.length array)
  then Underscore.union without replaceWith
  else array.

(** The guard [if (! _.isString)] tests the function [_.isString] itself,
    which is always truthy, so the guard never fires. *)
Definition scopeStrToArray (scopes : string) : list string :=
  let trimmedScopes := JsString.trim scopes in
  if bool_decide (String.length trimmedScopes ≠ 0)
  then Underscore.uniq (JsString.split_whitespace scopes)
  else [].

Definition sanitizeUntrustedPermissions `{Constants} (permissions : list string)
    : list string :=
  Underscore.intersection permissions OAUTH_UNTRUSTED_ALLOWED_PERMISSIONS.

(** ** Values, attribute bags and errors *)

(** The JavaScript values that relier and client-info attributes take. *)
Inductive value :=
  | VUndefined
  | VNull
  | VBool (b : bool)
  | VStr (s : string)
  | VArray (l : list string).

#[global] Instance value_eq_dec : EqDecision value.
Proof. solve_decision. Defined.

Definition truthy (v : value) : bool :=
  match v with
  | VUndefined | VNull => false
  | VBool b => b
  | VStr s => bool_decide (s ≠ "")
  | VArray _ => true
  end.

(** A plain object or the attributes of a Backbone model. *)
Abbreviation Attrs := (gmap string value).

Module Model.

(** [model.get(attr)], also [object.attr] *)
Definition get (m : Attrs) (attr : string) : value := default VUndefined (m !! attr).

(** [model.has(attr)]: the attribute is neither [null] nor [undefined]. *)
Definition has (m : Attrs) (attr : string) : bool :=
  match get m attr with
  | VUndefined | VNull => false
  | _ => true
  end.

(** [model.set(attr, val)] *)
Definition set (m : Attrs) (attr : string) (val : value) : Attrs := <[attr := val]> m.

(** [model.set(object)]: every own property of [object] is set. *)
Definition setAll (m : Attrs) (object : Attrs) : Attrs := object ∪ m.

(** [model.unset(attr)] *)
Definition unset (m : Attrs) (attr : string) : Attrs := delete attr m.

End Model.

Inductive ErrorKind :=
  | INVALID_PARAMETER
  | MISSING_PARAMETER
  | INCORRECT_REDIRECT
  | UNKNOWN_CLIENT
  | TypeError
  | OtherError (errno : nat).

#[global] Instance ErrorKind_eq_dec : EqDecision ErrorKind.
Proof. solve_decision. Defined.

(** An error object: its kind, the [param] it names, the [validation.keys]
    a server response carries and the [client_id] attached for logging. *)
Record Error := {
  kind : ErrorKind;
  param : option string;
  validation_keys : option (list string);
  client_id : option value
}.

#[global] Instance Error_eq_dec : EqDecision Error.
Proof. solve_decision. Defined.

Module OAuthErrors.

Definition toError (k : ErrorKind) : Error :=
  {| kind := k; param := None; validation_keys := None; client_id := None |}.

Definition toInvalidParameterError (paramName : string) : Error :=
  {| kind := INVALID_PARAMETER; param := Some paramName;
     validation_keys := None; client_id := None |}.

Definition toMissingParameterError (paramName : string) : Error :=
  {| kind := MISSING_PARAMETER; param := Some paramName;
     validation_keys := None; client_id := None |}.

Definition is_ (err : Error) (k : ErrorKind) : bool := bool_decide (kind err = k).

End OAuthErrors.

(** A settled promise, or the outcome of a call that may throw. *)
Abbreviation Result A := (sum Error A).

Definition Result_bind {A B} (r : Result A) (f : A → Result B) : Result B :=
  match r with
  | inl err => inl err
  | inr a => f a
  end.

Declare Scope result_scope.
Delimit Scope result_scope with result.
Notation "'let*' x ':=' r 'in' k" := (Result_bind r (λ x, k))
  (at level 10, x name, r at level 100, k at level 200) : result_scope.
Open Scope result_scope.

Definition Result_isOk {A} (r : Result A) : bool :=
  match r with
  | inl _ => false
  | inr _ => true
  end.

(** The value a call returned, [d] when it threw. *)
Definition Result_value {A} (d : A) (r : Result A) : A :=
  match r with
  | inl _ => d
  | inr a => a
  end.

(** ** [lib/vat] and [lib/transform] *)

(** The format tests behind the Vat types the schemas use: predicates on
    strings, defined outside the two files embedded here. *)
Class VatFormats := {
  isHexValid : string → bool;
  isUrlValid : string → bool;
  isAccessTypeValid : string → bool;
  isClientIdValid : string → bool;
  isCodeChallengeValid : string → bool;
  isCodeChallengeMethodValid : string → bool;
  isKeysJwkValid : string → bool;
  isPromptValid : string → bool
}.

Module Vat.

(** Modelled from the spec: the rules of [lib/vat], which is outside the
    two files embedded here.  Section 4.1: a field of a schema has a
    validator, which is a predicate and a coercion, may be required and
    may be renamed.  A rule is the test on the raw value, the coercion of
    a value that passed the test, whether the field is required, and the
    name the field takes in the result. *)
Record Rule := {
  test : value → bool;
  coerce : value → value;
  isRequired : bool;
  renamedTo : option string
}.

(** Modelled from the spec: a format of [lib/vat], which is outside the
    two files embedded here.  Section 4.1: an opaque token format is a
    predicate on strings; the value that passes is stored as it is. *)
Definition ofStrings (f : string → bool) : Rule :=
  {| test := λ v, match v with VStr s => f s | _ => false end;
     coerce := λ v, v;
     isRequired := false; renamedTo := None |}.

(** Modelled from the spec: [Vat.boolean()] of [lib/vat], which is outside
    the two files embedded here.  Section 4.1: the boolean kind. *)
Definition boolean : Rule :=
  {| test := λ v, match v with VBool _ => true | _ => false end;
     coerce := λ v, v;
     isRequired := false; renamedTo := None |}.

(** Modelled from the spec: the formats of [lib/vat] the schemas use.
    Section 4.1: hexadecimal string, URL and the opaque token formats,
    each the predicate of [VatFormats] on strings. *)
Section Formats.
Context `{VatFormats}.
Definition hex := ofStrings isHexValid.
Definition url := ofStrings isUrlValid.
Definition accessType := ofStrings isAccessTypeValid.
Definition clientId := ofStrings isClientIdValid.
Definition codeChallenge := ofStrings isCodeChallengeValid.
Definition codeChallengeMethod := ofStrings isCodeChallengeMethodValid.
Definition keysJwk := ofStrings isKeysJwkValid.
Definition prompt := ofStrings isPromptValid.
End Formats.

(** Modelled from the spec: [.required()] of [lib/vat].  Section 4.1: a
    required field that is absent fails with MISSING_PARAMETER. *)
Definition required (r : Rule) : Rule :=
  {| test := test r; coerce := coerce r;
     isRequired := true; renamedTo := renamedTo r |}.

(** Modelled from the spec: [.renameTo(name)] of [lib/vat].  Section 4.1:
    the field is stored under [name]. *)
Definition renameTo (name : string) (r : Rule) : Rule :=
  {| test := test r; coerce := coerce r;
     isRequired := isRequired r; renamedTo := Some name |}.

(** Modelled from the spec: [.min(n)] of [lib/vat].  Section 4.1: a
    string with a minimum length, here at least [n] characters. *)
Definition min (n : nat) (r : Rule) : Rule :=
  {| test := λ v, test r v &&
               match v with VStr s => bool_decide (n ≤ String.length s)%nat | _ => true end;
     coerce := coerce r;
     isRequired := isRequired r; renamedTo := renamedTo r |}.

(** Modelled from the spec: [.allow(v)] of [lib/vat].  Section 4.1: a
    URL optionally allowing the empty string; the value [v] passes
    whatever the test says. *)
Definition allow (allowed : value) (r : Rule) : Rule :=
  {| test := λ v, bool_decide (v = allowed) || test r v;
     coerce := coerce r;
     isRequired := isRequired r; renamedTo := renamedTo r |}.

(** Modelled from the spec: [Vat.string()] of [lib/vat], which is outside
    the two files embedded here.  Section 4.1: the string kind is a
    predicate and a coercion.  Every string passes, and it is stored
    with the white space at its two ends stripped, so that a string a
    schema has let through never begins or ends with white space.  The
    properties below do not depend on whether [.min(n)] measures the
    string before or after the stripping. *)
Definition string : Rule :=
  {| test := λ v, match v with VStr _ => true | _ => false end;
     coerce := λ v, match v with VStr s => VStr (JsString.trim s) | _ => v end;
     isRequired := false; renamedTo := None |}.

End Vat.

(** A schema lists its fields in the order they are written. *)
Abbreviation Schema := (list (string * Vat.Rule)).

Module Transform.

(** Modelled from the spec: the loop of [Transform.transformUsingSchema]
    over the fields of the schema, which [lib/transform] and [lib/vat]
    hold outside the two files embedded here.  Section 4.1: an absent
    field fails with MISSING_PARAMETER when it is required and is skipped
    otherwise; a field that is present fails with INVALID_PARAMETER when
    its rule rejects it and is stored, coerced, under its new name
    otherwise. *)
Fixpoint transform_loop (data : Attrs) (schema : Schema) (result : Attrs)
    : Result Attrs :=
  match schema with
  | [] => inr result
  | (key, rule) :: rest =>
      match Model.get data key with
      | VUndefined =>
          if Vat.isRequired rule
          then inl (OAuthErrors.toMissingParameterError key)
          else transform_loop data rest result
      | raw =>
          if Vat.test rule raw
          then transform_loop data rest
                 (<[default key (Vat.renamedTo rule) := Vat.coerce rule raw]> result)
          else inl (OAuthErrors.toInvalidParameterError key)
      end
  end.

(** Modelled from the spec: [Transform.transformUsingSchema] of
    [lib/transform], which is outside the two files embedded here.
    Section 4.1: the fields of the schema are validated in turn and the
    first offending field decides the error; when none offends, the fields
    present are collected, coerced, under their new names, and fields the
    schema does not list are dropped. *)
Definition transformUsingSchema (data : Attrs) (schema : Schema) : Result Attrs :=
  transform_loop data schema ∅.

End Transform.

(** ** The account model, as the relier and the sign-in view use it

    [models/account] lies outside the two files embedded here: an account
    is its attributes and the results of the methods called on it. *)
Record Account := {
  account_attrs : Attrs;
  isDefault : bool;
  getPermissionsWithValues : value → list string;
  hasSeenPermissions : value → list string → bool
}.

(** ** The OAuth relier, [oauth.js]

    A method takes the attributes of the relier and returns them as it
    leaves them, or the error it throws.  After a throw only the error is
    kept: the attributes set before it are not followed further. *)

(** What a relier is constructed with and runs in. *)
Record RelierEnv := {
  (** the search parameters of [window.location.search] *)
  searchParams : gmap string string;
  (** [this._session.oauth], when there is one *)
  session_oauth : option Attrs;
  (** [this._oAuthClient.getClientInfo(clientId)], settled *)
  getClientInfo : value → Result Attrs;
  (** [Relier.prototype.fetch], the fetch of the base class, settled *)
  Relier_fetch : Attrs → Result Attrs
}.

Module OAuthRelier.
Section OAuthRelier.
Context `{Constants} `{VatFormats}.
Variable env : RelierEnv.

Definition CLIENT_INFO_SCHEMA : Schema := [
  ("id", Vat.renameTo "clientId" (Vat.required Vat.hex));
  ("image_uri", Vat.renameTo "imageUri" (Vat.allow (VStr "") Vat.url));
  ("name", Vat.renameTo "serviceName" (Vat.min 1 (Vat.required Vat.string)));
  ("redirect_uri", Vat.renameTo "redirectUri" (Vat.required Vat.url));
  ("trusted", Vat.required Vat.boolean)
].

Definition SIGNIN_SIGNUP_QUERY_PARAM_SCHEMA : Schema := [
  ("access_type", Vat.renameTo "accessType" Vat.accessType);
  ("client_id", Vat.renameTo "clientId" (Vat.required Vat.clientId));
  ("code_challenge", Vat.renameTo "codeChallenge" Vat.codeChallenge);
  ("code_challenge_method", Vat.renameTo "codeChallengeMethod" Vat.codeChallengeMethod);
  ("keys_jwk", Vat.renameTo "keysJwk" Vat.keysJwk);
  ("prompt", Vat.prompt);
  ("redirectTo", Vat.url);
  ("redirect_uri", Vat.renameTo "redirectUri" Vat.url);
  ("scope", Vat.min 1 (Vat.required Vat.string));
  ("state", Vat.string)
].

Definition VERIFICATION_INFO_SCHEMA : Schema := [
  ("access_type", Vat.renameTo "accessType" Vat.accessType);
  ("action", Vat.min 1 Vat.string);
  ("client_id", Vat.renameTo "clientId" (Vat.required Vat.clientId));
  ("prompt", Vat.prompt);
  ("redirect_uri", Vat.renameTo "redirectUri" Vat.url);
  ("scope", Vat.min 1 Vat.string);
  ("service", Vat.clientId);
  ("state", Vat.min 1 Vat.string)
].

(** The attributes [oauth.js] adds to the defaults of the base class. *)
Definition defaults : Attrs :=
  list_to_map [
    ("accessType", VNull); ("clientId", VNull);
    ("context", VStr OAUTH_CONTEXT); ("keysJwk", VNull);
    ("permissions", VNull); ("prompt", VNull); ("redirectTo", VNull);
    ("redirectUri", VNull); ("scope", VNull); ("state", VNull)
  ].

(** [this.getSearchParam(name)] *)
Definition getSearchParam (name : string) : value :=
  match searchParams env !! name with
  | Some s => VStr s
  | None => VUndefined
  end.

(** Modelled from the spec: [importSearchParamsUsingSchema] is a method of
    the base relier, [models/reliers/relier], which is outside the two
    files embedded here.  Section 4.3: the parameters are read from the
    query string through the schema transform, and the result is set on
    the relier. *)
Definition importSearchParamsUsingSchema (this : Attrs) (schema : Schema)
    : Result Attrs :=
  let* result := Transform.transformUsingSchema (VStr <$> searchParams env) schema in
  inr (Model.setAll this result).

Definition isTrusted (this : Attrs) : value := Model.get this "trusted".

Definition wantsConsent (this : Attrs) : bool :=
  bool_decide (Model.get this "prompt" = VStr OAUTH_PROMPT_CONSENT).

(** The permission list [_normalizeScopesAndPermissions] computes from
    the scope string, before the emptiness test. *)
Definition normalizedPermissions (this : Attrs) (scope : string) : list string :=
  let permissions := scopeStrToArray scope in
  if truthy (isTrusted this) then
    if wantsConsent this then
      replaceItemInArray permissions
        OAUTH_TRUSTED_PROFILE_SCOPE OAUTH_TRUSTED_PROFILE_SCOPE_EXPANSION
    else permissions
  else sanitizeUntrustedPermissions permissions.

(** A [scope] that is not a string has no [trim] method: the call throws. *)
Definition _normalizeScopesAndPermissions (this : Attrs) : Result Attrs :=
  match Model.get this "scope" with
  | VStr scope =>
      let permissions := normalizedPermissions this scope in
      if bool_decide (List.length permissions = 0)
      then inl (OAuthErrors.toInvalidParameterError "scope")
      else
        let this := Model.set this "scope" (VStr (JsString.join " " permissions)) in
        inr (Model.set this "permissions" (VArray permissions))
  | _ => inl (OAuthErrors.toError TypeError)
  end.

Definition _isVerificationFlow : bool := truthy (getSearchParam "code").

Definition _setupVerificationFlow (this : Attrs) : Result Attrs :=
  let resumeObj :=
    match session_oauth env with
    | Some resumeObj => resumeObj
    | None =>
        Model.set (Model.set ∅ "client_id" (getSearchParam "service"))
          "service" (getSearchParam "service")
    end in
  let* result := Transform.transformUsingSchema resumeObj VERIFICATION_INFO_SCHEMA in
  inr (Model.setAll this result).

Definition _setupSignInSignUpFlow (this : Attrs) : Result Attrs :=
  let* this := importSearchParamsUsingSchema this SIGNIN_SIGNUP_QUERY_PARAM_SCHEMA in
  if truthy (getSearchParam "service")
  then inl (OAuthErrors.toInvalidParameterError "service")
  else inr this.

(** [err.validation && err.validation.keys && err.validation.keys[0] === 'client_id'] *)
Definition firstValidationKeyIs (err : Error) (key : string) : bool :=
  match validation_keys err with
  | Some (first :: _) => bool_decide (first = key)
  | _ => false
  end.

Definition _setupOAuthRPInfo (this : Attrs) (verificationFlow : bool)
    : Result Attrs :=
  let clientId := Model.get this "clientId" in
  let queryRedirectUri := Model.get this "redirectUri" in
  match getClientInfo env clientId with
  | inr serviceInfo =>
      let* result := Transform.transformUsingSchema serviceInfo CLIENT_INFO_SCHEMA in
      if negb verificationFlow
         && bool_decide (Model.get result "redirectUri" ≠ queryRedirectUri)
      then inl (OAuthErrors.toError INCORRECT_REDIRECT)
      else inr (Model.setAll this result)
  | inl err =>
      if OAuthErrors.is_ err INVALID_PARAMETER && firstValidationKeyIs err "client_id"
      then inl {| kind := UNKNOWN_CLIENT; param := None;
                  validation_keys := None; client_id := Some clientId |}
      else inl err
  end.

(** The first callback of [fetch], up to the call of [_setupOAuthRPInfo]:
    the parameters of the flow are imported and [service] is defaulted. *)
Definition fetch_importParams (this : Attrs) : Result Attrs :=
  let* this :=
    if _isVerificationFlow then _setupVerificationFlow this
    else _setupSignInSignUpFlow this in
  inr (if negb (Model.has this "service")
       then Model.set this "service" (Model.get this "clientId")
       else this).

(** The second callback of [fetch]. *)
Definition fetch_normalize (this : Attrs) : Result Attrs :=
  if Model.has this "scope" then _normalizeScopesAndPermissions this
  else inr this.

Definition fetch (this : Attrs) : Result Attrs :=
  let* this := Relier_fetch env this in
  let* this := fetch_importParams this in
  let* this := _setupOAuthRPInfo this _isVerificationFlow in
  fetch_normalize this.

Definition accountNeedsPermissions (this : Attrs) (account : Account) : bool :=
  if truthy (isTrusted this) && negb (wantsConsent this) then false
  else
    let applicableProfilePermissions :=
      getPermissionsWithValues account (Model.get this "permissions") in
    negb (hasSeenPermissions account (Model.get this "clientId")
            applicableProfilePermissions).

End OAuthRelier.
End OAuthRelier.

(** ** The sign-in mixin, [signin-mixin.js] *)

(** [lib/verification-methods] and [lib/verification-reasons] lie outside
    the two files embedded here: the mixin is parameterised by the
    constants it compares with. *)
Class VerificationMethods := {
  EMAIL : string;
  EMAIL_2FA : string;
  EMAIL_CAPTCHA : string;
  TOTP_2FA : string
}.

Class VerificationReasons := {
  SIGN_IN : string
}.

Inductive AuthErrorKind :=
  | THROTTLED
  | REQUEST_BLOCKED
  | EMAIL_HARD_BOUNCE
  | EMAIL_SENT_COMPLAINT
  | UNEXPECTED_ERROR
  | OtherAuthError (errno : nat).

#[global] Instance AuthErrorKind_eq_dec : EqDecision AuthErrorKind.
Proof. solve_decision. Defined.

(** An error of the sign-in chain, with the two fields the mixin reads. *)
Record AuthError := {
  errorKind : AuthErrorKind;
  verificationReason : value;
  verificationMethod : value
}.

Module AuthErrors.

Definition toError (k : AuthErrorKind) : AuthError :=
  {| errorKind := k; verificationReason := VUndefined; verificationMethod := VUndefined |}.

Definition is_ (err : AuthError) (k : AuthErrorKind) : bool :=
  bool_decide (errorKind err = k).

End AuthErrors.

(** The options [signInAccount] is called with. *)
Record SignInOptions := {
  resume : value;
  unblockCode : value;
  opt_verificationMethod : value
}.

(** The data a screen is navigated to with. *)
Inductive NavigateData :=
  | PermissionsData (account : Account)
      (** [{account, onSubmitComplete: this.onSignInSuccess.bind(this)}] *)
  | UnblockData (account : Account) (lastPage : value) (password : value)
  | BouncedData (email : value)
  | AccountData (account : Account).

(** What the mixin does to its collaborators, in order. *)
Inductive Event :=
  | InvokeBrokerMethod (method : string) (account : Account)
  | LogFlowEvent (event view : string)
  | LogEvent (event : string)
  | LogViewEvent (event : string)
  | DiscardSessionToken
  | SignInAccount (account : Account) (password : value) (options : SignInOptions)
  | FormPrefillClear
  | Navigate (url : string) (data : NavigateData)
  | SendUnblockEmail (account : Account)
  | SetBehavior (method : string) (redirectTo : value) (navigateData : Attrs).

(** A call without its arguments, to read traces by. *)
Definition eventLabel (ev : Event) : string :=
  match ev with
  | InvokeBrokerMethod method _ => "broker." +:+ method
  | LogFlowEvent event view => "logFlowEvent " +:+ event +:+ " " +:+ view
  | LogEvent event => "logEvent " +:+ event
  | LogViewEvent event => "logViewEvent " +:+ event
  | DiscardSessionToken => "account.discardSessionToken"
  | SignInAccount _ _ _ => "user.signInAccount"
  | FormPrefillClear => "formPrefill.clear"
  | Navigate url _ => "navigate " +:+ url
  | SendUnblockEmail _ => "account.sendUnblockEmail"
  | SetBehavior method _ _ => "broker.setBehavior " +:+ method
  end.

(** The mutable objects the mixin works on, and the trace of its calls. *)
Record World := {
  relier : Attrs;
  model : Attrs;
  (** the object the [account] argument of [signIn] points to *)
  accountObj : option Account;
  trace : list Event
}.

(** The view the mixin is mixed into.  Collaborators are given by what
    their calls settle with, which may depend on everything done so far. *)
Record View := {
  hasCapability : string → bool;
  brokerMethodResult : World → string → Account → sum AuthError value;
  signInAccountResult :
    World → Account → value → SignInOptions → sum AuthError Account;
  sendUnblockEmailResult : World → Account → sum AuthError unit;
  (** the method of the experiment mixin, when the view has it: its result *)
  getTokenCodeExperimentGroup : option value;
  formPrefill : bool;
  afterSignInBrokerMethod : option string;
  afterSignInNavigateData : option Attrs;
  currentPage : value;
  getStringifiedResumeToken : Account → value;
  (** [this.relier.accountNeedsPermissions], which the relier class decides *)
  relierAccountNeedsPermissions : Attrs → Account → bool
}.

(** The world after one more call. *)
Definition World_record (w : World) (ev : Event) : World :=
  {| relier := relier w; model := model w;
     accountObj := accountObj w; trace := trace w ++ [ev] |}.

(** A promise chain over the world: it settles with an error or a value. *)
Definition Promise (A : Type) : Type := World → World * sum AuthError A.

Module Promise.

Definition resolve {A} (a : A) : Promise A := λ w, (w, inr a).
Definition reject {A} (err : AuthError) : Promise A := λ w, (w, inl err).

Definition then_ {A B} (p : Promise A) (f : A → Promise B) : Promise B :=
  λ w, match p w with
       | (w', inr a) => f a w'
       | (w', inl err) => (w', inl err)
       end.

Definition catch {A} (p : Promise A) (handler : AuthError → Promise A) : Promise A :=
  λ w, match p w with
       | (w', inl err) => handler err w'
       | settled => settled
       end.

(** a call to a collaborator, recorded and settled from the world *)
Definition call {A} (ev : Event) (settle : World → sum AuthError A) : Promise A :=
  λ w, (World_record w ev, settle w).

Definition emit (ev : Event) : Promise unit := call ev (λ _, inr tt).

Definition getWorld : Promise World := λ w, (w, inr w).

Definition setRelier (r : Attrs) : Promise unit :=
  λ w, ({| relier := r; model := model w;
           accountObj := accountObj w; trace := trace w |}, inr tt).

Definition setModel (m : Attrs) : Promise unit :=
  λ w, ({| relier := relier w; model := m;
           accountObj := accountObj w; trace := trace w |}, inr tt).

Definition setAccountObj (a : option Account) : Promise unit :=
  λ w, ({| relier := relier w; model := model w;
           accountObj := a; trace := trace w |}, inr tt).

End Promise.

#[global] Instance Promise_ret : MRet Promise := @Promise.resolve.
#[global] Instance Promise_bind : MBind Promise := λ A B f p, Promise.then_ p f.

Definition setAccountAttrs (account : Account) (attrs : Attrs) : Account :=
  {| account_attrs := attrs; isDefault := isDefault account;
     getPermissionsWithValues := getPermissionsWithValues account;
     hasSeenPermissions := hasSeenPermissions account |}.

Module SignInMixin.
Section SignInMixin.
Context `{VerificationMethods} `{VerificationReasons}.
Variable this : View.

Definition invokeBrokerMethod (method : string) (account : Account) : Promise value :=
  Promise.call (InvokeBrokerMethod method account)
    (λ w, brokerMethodResult this w method account).

Definition navigate (url : string) (data : NavigateData) : Promise value :=
  Promise.emit (Navigate url data) ≫= λ _, mret VUndefined.

(** [account.discardSessionToken()] on the account object of the world *)
Definition discardSessionToken (account : Account) : Promise Account :=
  let account := setAccountAttrs account (Model.unset (account_attrs account) "sessionToken") in
  Promise.emit DiscardSessionToken ;;
  Promise.setAccountObj (Some account) ;;
  mret account.

(** The [account] variable of [signIn], read where a handler uses it. *)
Definition theAccount (initial : Account) : Promise Account :=
  w ← Promise.getWorld; mret (default initial (accountObj w)).

Definition onSignInBlocked (account : Account) (password : value) (err : AuthError)
    : Promise value :=
  if bool_decide (verificationReason err = VStr SIGN_IN)
     && bool_decide (verificationMethod err = VStr EMAIL_CAPTCHA)
  then
    Promise.call (SendUnblockEmail account)
      (λ w, sendUnblockEmailResult this w account) ;;
    navigate "signin_unblock" (UnblockData account (currentPage this) password)
  else Promise.reject err.

(** [this.afterSignInBrokerMethod || 'afterSignIn'] *)
Definition afterSignIn_brokerMethod : string :=
  match afterSignInBrokerMethod this with
  | Some method => if bool_decide (method ≠ "") then method else "afterSignIn"
  | None => "afterSignIn"
  end.

Definition onSignInSuccess (account : Account) : Promise value :=
  if negb (truthy (Model.get (account_attrs account) "verified")) then
    let verificationMethod := Model.get (account_attrs account) "verificationMethod" in
    let verificationReason := Model.get (account_attrs account) "verificationReason" in
    if bool_decide (verificationReason = VStr SIGN_IN)
       && bool_decide (verificationMethod = VStr EMAIL)
    then navigate "confirm_signin" (AccountData account)
    else if bool_decide (verificationReason = VStr SIGN_IN)
            && bool_decide (verificationMethod = VStr EMAIL_2FA)
    then navigate "signin_token_code" (AccountData account)
    else if bool_decide (verificationReason = VStr SIGN_IN)
            && bool_decide (verificationMethod = VStr TOTP_2FA)
    then navigate "signin_totp_code" (AccountData account)
    else navigate "confirm" (AccountData account)
  else
    w ← Promise.getWorld;
    (if bool_decide (Model.get (account_attrs account) "uid" ≠ Model.get (relier w) "uid")
        && hasCapability this "allowUidChange"
     then Promise.setRelier
            (Model.set (relier w) "uid" (Model.get (account_attrs account) "uid"))
     else mret tt) ;;
    Promise.emit (LogEvent "signin.success") ;;
    Promise.emit (LogEvent "signin.success.skip-confirm") ;;
    Promise.emit (LogViewEvent "signin.success") ;;
    let brokerMethod := afterSignIn_brokerMethod in
    let navigateData := default ∅ (afterSignInNavigateData this) in
    w ← Promise.getWorld;
    (if truthy (Model.get (model w) "redirectTo") then
       Promise.setModel (Model.unset (model w) "redirectTo") ;;
       Promise.emit (SetBehavior brokerMethod (Model.get (model w) "redirectTo") navigateData)
     else mret tt) ;;
    invokeBrokerMethod brokerMethod account.

(** The chain of [signIn] up to its [catch]: the broker's [beforeSignIn],
    the authentication call, and what follows when it succeeds. *)
Definition signIn_attempt (initial : Account) (password : value)
    (options_unblockCode : value) : Promise value :=
  invokeBrokerMethod "beforeSignIn" initial ;;
  Promise.emit (LogFlowEvent "attempt" "signin") ;;
  let verificationMethod :=
    match getTokenCodeExperimentGroup this with
    | Some group =>
        if bool_decide (group = VStr "treatment-code") then VStr EMAIL_2FA
        else if bool_decide (group = VStr "treatment-link") then VStr EMAIL
        else VUndefined
    | None => VUndefined
    end in
  account ←
    (if Model.has (account_attrs initial) "sessionToken"
        && negb (hasCapability this "reuseExistingSession")
     then discardSessionToken initial
     else mret initial) ;
  let options :=
    {| resume := getStringifiedResumeToken this account;
       unblockCode := options_unblockCode;
       opt_verificationMethod := verificationMethod |} in
  account ← Promise.call (SignInAccount account password options)
              (λ w, signInAccountResult this w account password options) ;
  (if formPrefill this then Promise.emit FormPrefillClear else mret tt) ;;
  w ← Promise.getWorld ;
  if relierAccountNeedsPermissions this (relier w) account
  then navigate "signin_permissions" (PermissionsData account)
  else onSignInSuccess account.

(** The handler of the [catch] that ends the chain of [signIn]. *)
Definition signIn_onRejected (initial : Account) (password : value)
    (err : AuthError) : Promise value :=
  account ← theAccount initial ;
  if AuthErrors.is_ err THROTTLED || AuthErrors.is_ err REQUEST_BLOCKED
  then onSignInBlocked account password err
  else if AuthErrors.is_ err EMAIL_HARD_BOUNCE
          || AuthErrors.is_ err EMAIL_SENT_COMPLAINT
  then navigate "signin_bounced"
         (BouncedData (Model.get (account_attrs account) "email"))
  else Promise.reject err.

Definition signIn (account : option Account) (password : value)
    (options_unblockCode : value) : Promise value :=
  match account with
  | None => Promise.reject (AuthErrors.toError UNEXPECTED_ERROR)
  | Some initial =>
    if isDefault initial
       || (negb (Model.has (account_attrs initial) "sessionToken")
           && negb (truthy password))
    then Promise.reject (AuthErrors.toError UNEXPECTED_ERROR)
    else
      Promise.setAccountObj (Some initial) ;;
      Promise.catch
        (signIn_attempt initial password options_unblockCode)
        (signIn_onRejected initial password)
  end.

End SignInMixin.
End SignInMixin.

(** ** Scoped keys: [wantsKeys] and [_validateKeyScopeRequest] of [oauth.js] *)

(** The part of [this._config] the relier reads. *)
Record Config := {
  scopedKeysEnabled : value;
  (** [scopedKeysValidation]: for a scope, the [redirectUris] that may ask
      for its key *)
  scopedKeysValidation : option (gmap string (list string))
}.

(** What the two methods throw: [new Error(message)], or the TypeError of
    calling [trim] on a scope that is not a string. *)
Inductive Thrown :=
  | Thrown_Error (message : string)
  | Thrown_TypeError.

#[global] Instance Thrown_eq_dec : EqDecision Thrown.
Proof. solve_decision. Defined.

Module ScopedKeys.

(** [redirectUris.includes(value)] on an array of strings *)
Definition includes (redirectUris : list string) (v : value) : bool :=
  match v with
  | VStr uri => bool_decide (uri ∈ redirectUris)
  | _ => false
  end.

(** The [forEach] over the scopes: [foundRedirectScopeMatch] is the flag it
    sets, and the first scope of the table that does not list the redirect
    URI of the relier ends it with a throw. *)
Fixpoint forEach_scope (validation : gmap string (list string)) (redirectUri : value)
    (scopes : list string) (foundRedirectScopeMatch : bool) : sum Thrown bool :=
  match scopes with
  | [] => inr foundRedirectScopeMatch
  | scope :: rest =>
      match validation !! scope with
      | Some redirectUris =>
          if includes redirectUris redirectUri
          then forEach_scope validation redirectUri rest true
          else inl (Thrown_Error "Invalid redirect parameter")
      | None => forEach_scope validation redirectUri rest foundRedirectScopeMatch
      end
  end.

Definition _validateKeyScopeRequest (config : Config) (this : Attrs) : sum Thrown bool :=
  if negb (Model.has this "keysJwk") then inr false
  else
    let validation := default ∅ (scopedKeysValidation config) in
    if negb (truthy (Model.get this "scope"))
    then inl (Thrown_Error "Invalid scope parameter")
    else
      match Model.get this "scope" with
      | VStr scope =>
          match forEach_scope validation (Model.get this "redirectUri")
                  (scopeStrToArray scope) false with
          | inl thrown => inl thrown
          | inr foundRedirectScopeMatch =>
              if negb foundRedirectScopeMatch
              then inl (Thrown_Error "No key-bearing scopes requested")
              else inr true
          end
      | _ => inl Thrown_TypeError
      end.

(** [!! (this._config && this._config.scopedKeysEnabled
         && this._validateKeyScopeRequest())] *)
Definition wantsKeys (config : option Config) (this : Attrs) : sum Thrown bool :=
  match config with
  | None => inr false
  | Some config =>
      if truthy (scopedKeysEnabled config) then _validateKeyScopeRequest config this
      else inr false
  end.

(** The scopes of the request that the validation table lists. *)
Definition keyBearing (config : Config) (scope : string) : list string :=
  filter (λ s, is_Some (default ∅ (scopedKeysValidation config) !! s))
    (scopeStrToArray scope).

(** The table lets the redirect URI ask for the key of the scope. *)
Definition allowsRedirect (config : Config) (redirectUri : value) (scope : string) : Prop :=
  ∃ redirectUris,
    default ∅ (scopedKeysValidation config) !! scope = Some redirectUris
    ∧ includes redirectUris redirectUri = true.

End ScopedKeys.

(** ** Reference definitions, in the words of the specification *)

(** Deduplication that keeps the first occurrence of every token. *)
Fixpoint firstOccurrences (l : list string) : list string :=
  match l with
  | [] => []
  | x :: rest => x :: filter (λ y, y ≠ x) (firstOccurrences rest)
  end.






(** A token of a scope string: not empty, and without white space. *)
Definition whitespaceFree (t : string) : Prop :=
  Forall (λ c, JsString.WhiteSpace c = false) (list_ascii_of_string t).

Definition isToken (t : string) : Prop := t ≠ "" ∧ whitespaceFree t.

(** Section 4.2, step 2, read literally: every occurrence of the token is
    replaced by the expansion list where it stands, and duplicates after
    the first occurrence are dropped. *)
Definition expandInPlace (array : list string) (itemToReplace : string)
    (replaceWith : list string) : list string :=
  firstOccurrences
    (array ≫= λ item, if bool_decide (item = itemToReplace) then replaceWith else [item]).

(** An invariant of the relier along a promise chain, with a condition on
    the calls it makes: run from a world whose relier satisfies [Inv], the
    chain leaves a relier that satisfies [Inv], and has added to the trace
    only calls that satisfy [Allowed]. *)
Definition keepsAt {A} (Inv : Attrs → Prop) (Allowed : Event → Prop)
    (p : Promise A) (w : World) : Prop :=
  Inv (relier w) →
  Inv (relier (p w).1)
  ∧ ∃ events, trace (p w).1 = (trace w ++ events)%list ∧ Forall Allowed events.

Definition keeps {A} (Inv : Attrs → Prop) (Allowed : Event → Prop)
    (p : Promise A) : Prop :=
  ∀ w, keepsAt Inv Allowed p w.

(** The relier is trusted and does not ask for consent. *)
Definition skipsConsent `{Constants} (r : Attrs) : Prop :=
  truthy (OAuthRelier.isTrusted r) = true ∧ OAuthRelier.wantsConsent r = false.

(** The call is not a navigation to the permissions screen. *)
Definition notPermissionsScreen (ev : Event) : Prop :=
  ∀ data, ev ≠ Navigate "signin_permissions" data.

(** The authentication call is made with an account that holds no session
    token, unless the broker reuses sessions. *)
Definition freshSession (this : View) (ev : Event) : Prop :=
  ∀ account password options,
    ev = SignInAccount account password options →
    hasCapability this "reuseExistingSession" = true
    ∨ Model.has (account_attrs account) "sessionToken" = false.

(** The call is not the authentication call. *)
Definition notSignInAccount (ev : Event) : Prop :=
  ∀ account password options, ev ≠ SignInAccount account password options.

(** The call is none of those that complete a sign-in: no success event,
    no behaviour set on the broker, no broker method but [beforeSignIn]. *)
Definition notCompletion (ev : Event) : Prop :=
  match ev with
  | LogEvent _ | LogViewEvent _ | SetBehavior _ _ _ => False
  | InvokeBrokerMethod method _ => method = "beforeSignIn"
  | _ => True
  end.

(** The relier [r] is [r0], or [r0] with another [uid] on a broker that
    allows the change. *)
Definition uidOnly (this : View) (r0 r : Attrs) : Prop :=
  r = r0
  ∨ (hasCapability this "allowUidChange" = true ∧ ∃ uid, r = Model.set r0 "uid" uid).

(** The call is not [broker.setBehavior]. *)
Definition notSetBehavior (ev : Event) : Prop :=
  ∀ method redirectTo navigateData, ev ≠ SetBehavior method redirectTo navigateData.

(** ** A configuration for the examples *)

Module Sample.

Definition constants : Constants := {|
  OAUTH_CONTEXT := "oauth";
  OAUTH_PROMPT_CONSENT := "consent";
  OAUTH_TRUSTED_PROFILE_SCOPE := "profile";
  OAUTH_TRUSTED_PROFILE_SCOPE_EXPANSION :=
    ["profile:uid"; "profile:email"; "profile:display_name"; "profile:avatar"];
  OAUTH_UNTRUSTED_ALLOWED_PERMISSIONS :=
    ["openid"; "profile:display_name"; "profile:email"; "profile:uid"]
|}.

#[global] Existing Instance constants.

Definition isHexDigit (c : ascii) : bool :=
  let n := nat_of_ascii c in
  bool_decide (48 ≤ n ≤ 57 ∨ 65 ≤ n ≤ 70 ∨ 97 ≤ n ≤ 102)%nat.

Definition isHex (s : string) : bool :=
  bool_decide (s ≠ "") && forallb isHexDigit (list_ascii_of_string s).

Definition isUrl (s : string) : bool :=
  String.prefix "https://" s || String.prefix "http://" s.

Definition formats : VatFormats := {|
  isHexValid := isHex;
  isUrlValid := isUrl;
  isAccessTypeValid := λ s, bool_decide (s ∈ ["offline"; "online"]);
  isClientIdValid := isHex;
  isCodeChallengeValid := λ s, bool_decide (43 ≤ String.length s ≤ 128)%nat;
  isCodeChallengeMethodValid := λ s, bool_decide (s = "S256");
  isKeysJwkValid := λ s, bool_decide (s ≠ "");
  isPromptValid := λ s, bool_decide (s = "consent")
|}.

Definition methods : VerificationMethods := {|
  EMAIL := "email";
  EMAIL_2FA := "email-2fa";
  EMAIL_CAPTCHA := "email-captcha";
  TOTP_2FA := "totp-2fa"
|}.

Definition reasons : VerificationReasons := {| SIGN_IN := "login" |}.

(** The client registry knows one client. *)
Definition clientInfo : Attrs :=
  list_to_map [
    ("id", VStr "dcdb5ae7add825d2");
    ("image_uri", VStr "");
    ("name", VStr "123done");
    ("redirect_uri", VStr "https://123done.org/api/oauth");
    ("trusted", VBool true)
  ].

Definition relierEnv (params : list (string * string)) (session : option Attrs)
    : RelierEnv := {|
  searchParams := list_to_map params;
  session_oauth := session;
  getClientInfo := λ clientId,
    if bool_decide (clientId = VStr "dcdb5ae7add825d2") then inr clientInfo
    else inl {| kind := INVALID_PARAMETER; param := None;
                validation_keys := Some ["client_id"]; client_id := None |};
  Relier_fetch := λ this, inr this
|}.

Definition fetch (params : list (string * string)) (session : option Attrs)
    : Result Attrs :=
  @OAuthRelier.fetch constants formats (relierEnv params session)
    OAuthRelier.defaults.

(** A sign-in request of the registered client. *)
Definition params : list (string * string) := [
  ("client_id", "dcdb5ae7add825d2");
  ("scope", "profile openid");
  ("redirect_uri", "https://123done.org/api/oauth")
].


(** The same request with a redirect URI the client did not register. *)
Definition params_other_redirect : list (string * string) := [
  ("client_id", "dcdb5ae7add825d2");
  ("scope", "profile openid");
  ("redirect_uri", "https://example.org/elsewhere")
].

(** A verification link, and the OAuth context the session kept for it,
    which holds a redirect URI the client did not register. *)
Definition params_verification : list (string * string) := [("code", "c0ffee")].

Definition session : Attrs :=
  list_to_map [
    ("client_id", VStr "dcdb5ae7add825d2");
    ("redirect_uri", VStr "https://example.org/elsewhere");
    ("scope", VStr "profile openid")
  ].

(** A relier after the client info has been set, before normalisation. *)
Definition relierWith (trusted : bool) (prompt : value) (scope : string) : Attrs :=
  Model.set (Model.set (Model.set (Model.set OAuthRelier.defaults
    "clientId" (VStr "dcdb5ae7add825d2"))
    "trusted" (VBool trusted))
    "prompt" prompt)
    "scope" (VStr scope).

Definition normalizedPermissions :=
  @OAuthRelier.normalizedPermissions constants.

Definition normalize :=
  @OAuthRelier._normalizeScopesAndPermissions constants.

(** An attribute of the relier a call returned. *)
Definition attr (name : string) (r : Result Attrs) : Result value :=
  let* this := r in inr (Model.get this name).

(** An account that holds a password-less session, with the attributes
    given on top. *)
Definition account (attrs : list (string * value)) : Account := {|
  account_attrs :=
    list_to_map (attrs ++ [("email", VStr "testuser@testuser.com");
                           ("uid", VStr "bd8c1cba");
                           ("sessionToken", VStr "abc123")]);
  isDefault := false;
  getPermissionsWithValues := λ permissions,
    match permissions with
    | VArray l => l
    | _ => []
    end;
  hasSeenPermissions := λ _ _, false
|}.

(** A blocked sign-in that an unblock code can unblock. *)
Definition unblockable (k : AuthErrorKind) : AuthError :=
  {| errorKind := k;
     verificationReason := VStr "login";
     verificationMethod := VStr "email-captcha" |}.

(** A view on a broker that has the capabilities listed, with the
    authentication call and the unblock email settled as given. *)
Definition view (capabilities : list string)
    (signInAccountResult : Account → sum AuthError Account)
    (sendUnblockEmailResult : sum AuthError unit) : View := {|
  hasCapability := λ name, bool_decide (name ∈ capabilities);
  brokerMethodResult := λ _ method _, inr (VStr method);
  signInAccountResult := λ _ account _ _, signInAccountResult account;
  sendUnblockEmailResult := λ _ _, sendUnblockEmailResult;
  getTokenCodeExperimentGroup := Some VUndefined;
  formPrefill := true;
  afterSignInBrokerMethod := None;
  afterSignInNavigateData := None;
  currentPage := VStr "signin";
  getStringifiedResumeToken := λ _, VStr "resume token";
  relierAccountNeedsPermissions := @OAuthRelier.accountNeedsPermissions constants
|}.

(** The world of a trusted relier that does not ask for consent. *)
Definition world : World := {|
  relier := Model.set (relierWith true VNull "profile") "uid" (VStr "bd8c1cba");
  model := ∅;
  accountObj := None;
  trace := []
|}.

(** Scoped keys are enabled, and one scope carries a key. *)
Definition config : Config := {|
  scopedKeysEnabled := VBool true;
  scopedKeysValidation :=
    Some {[ "https://identity.mozilla.com/apps/oldsync" :=
              ["https://123done.org/api/oauth"] ]}
|}.

(** A relier that asks for the key of that scope, from the redirect URI
    given. *)
Definition keyRelier (redirectUri : string) : Attrs :=
  Model.set (Model.set (Model.set OAuthRelier.defaults
    "keysJwk" (VStr "eyJrdHkiOiJFQyJ9"))
    "redirectUri" (VStr redirectUri))
    "scope" (VStr "profile https://identity.mozilla.com/apps/oldsync").

(** A view whose broker settles every method as given, and whose relier
    answers [needsPermissions] for every account. *)
Definition customView (brokerResult : sum AuthError value) (needsPermissions : bool)
    (signInAccountResult : Account → sum AuthError Account) : View := {|
  hasCapability := λ _, false;
  brokerMethodResult := λ _ _ _, brokerResult;
  signInAccountResult := λ _ account _ _, signInAccountResult account;
  sendUnblockEmailResult := λ _ _, inr tt;
  getTokenCodeExperimentGroup := None;
  formPrefill := false;
  afterSignInBrokerMethod := None;
  afterSignInNavigateData := None;
  currentPage := VStr "signin";
  getStringifiedResumeToken := λ _, VStr "resume token";
  relierAccountNeedsPermissions := λ _ _, needsPermissions
|}.

(** The world above, with a redirect pending on the model. *)
Definition worldWithRedirect : World := {|
  relier := Model.set (relierWith true VNull "profile") "uid" (VStr "bd8c1cba");
  model := {[ "redirectTo" := VStr "https://accounts.example.org/settings" ]};
  accountObj := None;
  trace := []
|}.

(** The world of a relier that is not trusted, after normalisation. *)
Definition worldUntrusted : World := {|
  relier := Model.set (relierWith false VNull "openid") "permissions" (VArray ["openid"]);
  model := ∅;
  accountObj := None;
  trace := []
|}.

(** What a chain did and what it settled with. *)
Definition run (p : Promise value) (w : World) : list string * sum AuthError value :=
  let '(w', settled) := p w in (eventLabel <$> trace w', settled).

Definition signIn :=
  @SignInMixin.signIn methods reasons.

Definition onSignInSuccess :=
  @SignInMixin.onSignInSuccess methods reasons.

End Sample.

(** * Properties *)

Local Open Scope list_scope.

Lemma Result_value_ok {A} (d : A) (r : Result A) :
  Result_isOk r = true → r = inr (Result_value d r).
Proof. by destruct r. Qed.

(** ** Underscore's array functions *)

Section UnderscoreFacts.
Implicit Types (l array acc other : list string) (x item : string).

Lemma firstOccurrences_elem x l : x ∈ firstOccurrences l ↔ x ∈ l.
Proof.
  induction l as [|y l IH]; simpl; [done|].
  rewrite !elem_of_cons, list_elem_of_filter, IH.
  destruct (decide (x = y)); naive_solver.
Qed.

Lemma firstOccurrences_NoDup l : NoDup (firstOccurrences l).
Proof.
  induction l as [|y l IH]; simpl; constructor.
  - rewrite list_elem_of_filter. naive_solver.
  - by apply NoDup_filter.
Qed.

Lemma firstOccurrences_sublist l : firstOccurrences l `sublist_of` l.
Proof.
  induction l as [|y l IH]; simpl; [done|].
  apply sublist_skip. etrans; [apply sublist_filter|done].
Qed.

Lemma filter_ne_id x l : x ∉ l → filter (λ y, y ≠ x) l = l.
Proof.
  induction l as [|y l IH]; [done|]. rewrite not_elem_of_cons. intros [? ?].
  rewrite filter_cons_True by done. by rewrite IH.
Qed.

Lemma firstOccurrences_id l : NoDup l → firstOccurrences l = l.
Proof.
  induction 1 as [|y l Hy _ IH]; simpl; [done|].
  by rewrite IH, filter_ne_id.
Qed.

Lemma firstOccurrences_app l1 l2 :
  firstOccurrences (l1 ++ l2)
  = firstOccurrences l1 ++ filter (λ x, x ∉ l1) (firstOccurrences l2).
Proof.
  induction l1 as [|y l1 IH]; simpl.
  - symmetry. transitivity (filter (λ _ : string, True) (firstOccurrences l2)).
    + apply list_filter_iff. intros x. rewrite elem_of_nil. naive_solver.
    + induction (firstOccurrences l2) as [|z k IHk]; [done|].
      rewrite filter_cons_True by done. by rewrite IHk.
  - rewrite IH, filter_app, list_filter_filter. do 2 f_equal.
    apply list_filter_iff. intros x. rewrite not_elem_of_cons. naive_solver.
Qed.

Lemma uniq_loop_firstOccurrences acc l :
  Underscore.uniq_loop acc l
  = acc ++ filter (λ x, x ∉ acc) (firstOccurrences l).
Proof.
  revert acc. induction l as [|y l IH]; intros acc; simpl.
  - by rewrite app_nil_r.
  - unfold Underscore.contains. case_bool_decide as Hy.
    + rewrite IH, filter_cons_False by naive_solver.
      rewrite list_filter_filter. do 1 f_equal.
      apply list_filter_iff. intros x. split; [|naive_solver].
      intros Hx. split; [done|]. by intros ->.
    + rewrite IH, filter_cons_True by done.
      rewrite <- app_assoc. simpl. do 2 f_equal.
      rewrite list_filter_filter.
      apply list_filter_iff. intros x.
      rewrite elem_of_app, list_elem_of_singleton. naive_solver.
Qed.

(** [_.uniq] keeps the first occurrence of every value. *)
Lemma uniq_firstOccurrences l : Underscore.uniq l = firstOccurrences l.
Proof.
  unfold Underscore.uniq. rewrite uniq_loop_firstOccurrences. simpl.
  pose proof (firstOccurrences_app [] l) as Happ. simpl in Happ. by rewrite <- Happ.
Qed.

Lemma uniq_NoDup l : NoDup (Underscore.uniq l).
Proof. rewrite uniq_firstOccurrences. apply firstOccurrences_NoDup. Qed.

Lemma uniq_elem x l : x ∈ Underscore.uniq l ↔ x ∈ l.
Proof. rewrite uniq_firstOccurrences. apply firstOccurrences_elem. Qed.

Lemma uniq_id l : NoDup l → Underscore.uniq l = l.
Proof. rewrite uniq_firstOccurrences. apply firstOccurrences_id. Qed.

(** [_.union] of a duplicate-free array with another: the array, then
    the new values of the other, each once. *)
Lemma union_NoDup_l l1 l2 :
  NoDup l1 →
  Underscore.union l1 l2 = l1 ++ filter (λ x, x ∉ l1) (Underscore.uniq l2).
Proof.
  intros Hl1. unfold Underscore.union.
  by rewrite !uniq_firstOccurrences, firstOccurrences_app, firstOccurrences_id.
Qed.

Lemma without_elem x array item :
  x ∈ Underscore.without array item ↔ x ∈ array ∧ x ≠ item.
Proof. unfold Underscore.without. rewrite list_elem_of_filter. naive_solver. Qed.

Lemma without_length array item :
  List.length (Underscore.without array item) ≠ List.length array ↔ item ∈ array.
Proof.
  unfold Underscore.without. split.
  - intros Hlen. destruct (decide (item ∈ array)) as [|Hnot]; [done|].
    by rewrite filter_ne_id in Hlen.
  - intros Hin.
    assert (List.length (filter (λ y, y ≠ item) array) < List.length array)
      by (apply (length_filter_lt _ _ item); [done|naive_solver]).
    lia.
Qed.

Lemma intersection_loop_filter acc array other :
  Underscore.intersection_loop acc array other
  = acc ++ filter (λ x, x ∉ acc ∧ x ∈ other) (firstOccurrences array).
Proof.
  revert acc. induction array as [|y l IH]; intros acc; simpl.
  - by rewrite app_nil_r.
  - unfold Underscore.contains.
    case_bool_decide as Hacc; [|case_bool_decide as Hother].
    + rewrite IH, filter_cons_False by naive_solver.
      rewrite list_filter_filter. f_equal.
      apply list_filter_iff. intros x. split; [|naive_solver].
      intros [Hx ?]. split; [done|]. by intros ->.
    + rewrite IH, filter_cons_True by done.
      rewrite <- app_assoc. simpl. do 2 f_equal.
      rewrite list_filter_filter.
      apply list_filter_iff. intros x.
      rewrite elem_of_app, list_elem_of_singleton. naive_solver.
    + rewrite IH, filter_cons_False by naive_solver.
      rewrite list_filter_filter. f_equal.
      apply list_filter_iff. intros x. split; [|naive_solver].
      intros [Hx ?]. split; [done|]. by intros ->.
Qed.

(** [_.intersection] keeps, in order, the values of a duplicate-free
    array that the other array contains. *)
Lemma intersection_NoDup_l array other :
  NoDup array →
  Underscore.intersection array other = filter (λ x, x ∈ other) array.
Proof.
  intros Hnd. unfold Underscore.intersection.
  rewrite intersection_loop_filter, firstOccurrences_id by done. simpl.
  apply list_filter_iff. intros x. rewrite elem_of_nil. naive_solver.
Qed.

Lemma intersection_NoDup array other :
  NoDup (Underscore.intersection array other).
Proof.
  unfold Underscore.intersection. rewrite intersection_loop_filter. simpl.
  apply NoDup_filter, firstOccurrences_NoDup.
Qed.

End UnderscoreFacts.

(** ** JavaScript strings *)

Section JsStringFacts.
Import JsString.

Lemma length_zero_empty (s : string) : String.length s = 0 ↔ s = "".
Proof. destruct s; simpl; [done|]. split; intros; discriminate. Qed.


End JsStringFacts.

(** ** Step 1 of scope normalisation: [scopeStrToArray] *)

Section ScopeStrToArray.

Lemma scopeStrToArray_NoDup (scopes : string) : NoDup (scopeStrToArray scopes).
Proof.
  unfold scopeStrToArray. case_bool_decide; [apply uniq_NoDup|constructor].
Qed.


(** Duplicates are dropped and the first-seen order is kept. *)
Lemma scopeStrToArray_example : scopeStrToArray "a b a c" = ["a"; "b"; "c"].
Proof. reflexivity. Qed.


End ScopeStrToArray.

(** ** Steps 2 to 4: expansion, filtering, the emptiness test *)

Section Normalisation.
Context `{Constants} `{VatFormats}.
Import OAuthRelier.

Lemma replaceItemInArray_absent (array : list string) item replaceWith :
  item ∉ array → replaceItemInArray array item replaceWith = array.
Proof.
  intros Hnot. unfold replaceItemInArray.
  by rewrite bool_decide_false by (by rewrite without_length).
Qed.

Lemma replaceItemInArray_present (array : list string) item replaceWith :
  NoDup array → item ∈ array →
  replaceItemInArray array item replaceWith
  = Underscore.without array item
    ++ filter (λ t, t ∉ Underscore.without array item) (Underscore.uniq replaceWith).
Proof.
  intros Hnd Hin. unfold replaceItemInArray.
  rewrite bool_decide_true by (by rewrite without_length).
  apply union_NoDup_l. by apply NoDup_filter.
Qed.

Lemma replaceItemInArray_NoDup (array : list string) item replaceWith :
  NoDup array → NoDup (replaceItemInArray array item replaceWith).
Proof.
  intros Hnd. unfold replaceItemInArray. case_bool_decide; [|done].
  apply uniq_NoDup.
Qed.

(** C1, as the code has it.  For a trusted relier that wants consent,
    normalisation leaves a permission list without the expandable token
    unchanged; otherwise it removes every occurrence of the token, keeps
    the remaining permissions in their order, and appends after them the
    expansion tokens that are not among those, each once in the order of
    the expansion list.  The result has no duplicates, and the token is
    gone from it unless the expansion list names it. *)
Theorem normalizedPermissions_trusted_consent (this : Attrs) (scope : string) :
  truthy (isTrusted this) = true →
  wantsConsent this = true →
  let permissions := scopeStrToArray scope in
  let remaining := Underscore.without permissions OAUTH_TRUSTED_PROFILE_SCOPE in
  NoDup (normalizedPermissions this scope)
  ∧ (OAUTH_TRUSTED_PROFILE_SCOPE ∉ permissions →
     normalizedPermissions this scope = permissions)
  ∧ (OAUTH_TRUSTED_PROFILE_SCOPE ∈ permissions →
     normalizedPermissions this scope
     = remaining
       ++ filter (λ t, t ∉ remaining)
            (Underscore.uniq OAUTH_TRUSTED_PROFILE_SCOPE_EXPANSION))
  ∧ (OAUTH_TRUSTED_PROFILE_SCOPE ∈ permissions →
     OAUTH_TRUSTED_PROFILE_SCOPE ∉ OAUTH_TRUSTED_PROFILE_SCOPE_EXPANSION →
     OAUTH_TRUSTED_PROFILE_SCOPE ∉ normalizedPermissions this scope).
Proof.
  intros Htrusted Hconsent permissions remaining.
  unfold normalizedPermissions. rewrite Htrusted, Hconsent.
  fold permissions.
  assert (NoDup permissions) as Hnd by apply scopeStrToArray_NoDup.
  split; [by apply replaceItemInArray_NoDup|].
  split; [by apply replaceItemInArray_absent|].
  split; [by apply replaceItemInArray_present|].
  intros Hin Hexp. rewrite replaceItemInArray_present by done. fold remaining.
  rewrite elem_of_app, list_elem_of_filter, uniq_elem.
  unfold remaining. rewrite without_elem. naive_solver.
Qed.

(** C5.  For an untrusted relier the permissions are those of the
    deduplicated list that the allow-list contains, in their original
    order.  Whatever the trust, an empty permission list makes the
    normalisation fail with INVALID_PARAMETER on [scope], and a
    non-empty one is stored. *)
Theorem normalize_untrusted_and_empty (this : Attrs) (scope : string) :
  Model.get this "scope" = VStr scope →
  (truthy (isTrusted this) = false →
   normalizedPermissions this scope
   = filter (λ p, p ∈ OAUTH_UNTRUSTED_ALLOWED_PERMISSIONS) (scopeStrToArray scope))
  ∧ (normalizedPermissions this scope = [] →
     _normalizeScopesAndPermissions this
     = inl (OAuthErrors.toInvalidParameterError "scope"))
  ∧ (normalizedPermissions this scope ≠ [] →
     ∃ this', _normalizeScopesAndPermissions this = inr this'
              ∧ Model.get this' "permissions"
                = VArray (normalizedPermissions this scope)).
Proof.
  intros Hscope. split; [|split].
  - intros Huntrusted. unfold normalizedPermissions. rewrite Huntrusted.
    unfold sanitizeUntrustedPermissions.
    apply intersection_NoDup_l, scopeStrToArray_NoDup.
  - intros Hempty. unfold _normalizeScopesAndPermissions.
    by rewrite Hscope, Hempty.
  - intros Hne. unfold _normalizeScopesAndPermissions. rewrite Hscope.
    rewrite bool_decide_false by (by destruct (normalizedPermissions this scope)).
    eexists. split; [done|].
    unfold Model.get, Model.set. by rewrite lookup_insert_eq.
Qed.

End Normalisation.

(** ** The claims on concrete reliers *)

Section NormalisationExamples.

Lemma normalizedPermissions_trusted_consent_example :
  let this := Sample.relierWith true (VStr "consent") "openid profile profile:email" in
  truthy (OAuthRelier.isTrusted this) = true
  ∧ @OAuthRelier.wantsConsent Sample.constants this = true
  ∧ Sample.normalizedPermissions this "openid profile profile:email"
    = ["openid"; "profile:email"; "profile:uid"; "profile:display_name";
       "profile:avatar"].
Proof.
  split; [reflexivity|]. split; [reflexivity|].
  set (this := Sample.relierWith true (VStr "consent") "openid profile profile:email").
  destruct (@normalizedPermissions_trusted_consent Sample.constants this
              "openid profile profile:email" eq_refl eq_refl)
    as (_ & _ & Hpresent & _).
  unfold Sample.normalizedPermissions. rewrite Hpresent; [reflexivity|].
  apply (bool_decide_unpack _). vm_compute. exact I.
Defined.

(** C1 as stated fails: the expansion does not take the place of the
    token.  A trusted relier asks for consent with scope
    ["profile openid"]; the sub-scopes of [profile] come after [openid],
    which followed [profile] in the request, where the expansion in place
    puts them before it. *)
Lemma expansion_is_appended_not_in_place :
  let this := Sample.relierWith true (VStr "consent") "profile openid" in
  scopeStrToArray "profile openid" = ["profile"; "openid"]
  ∧ Sample.normalizedPermissions this "profile openid"
    = ["openid"; "profile:uid"; "profile:email"; "profile:display_name";
       "profile:avatar"]
  ∧ expandInPlace ["profile"; "openid"] "profile"
      (@OAUTH_TRUSTED_PROFILE_SCOPE_EXPANSION Sample.constants)
    = ["profile:uid"; "profile:email"; "profile:display_name";
       "profile:avatar"; "openid"]
  ∧ Sample.normalizedPermissions this "profile openid"
    ≠ expandInPlace (scopeStrToArray "profile openid") "profile"
        (@OAUTH_TRUSTED_PROFILE_SCOPE_EXPANSION Sample.constants).
Proof. repeat split; try reflexivity. vm_compute. discriminate. Qed.

Lemma normalize_untrusted_example :
  let this := Sample.relierWith false VNull "profile:email secret openid" in
  Model.get this "scope" = VStr "profile:email secret openid"
  ∧ Sample.normalizedPermissions this "profile:email secret openid"
    = ["profile:email"; "openid"]
  ∧ Sample.normalize (Sample.relierWith false VNull "secret")
    = inl (OAuthErrors.toInvalidParameterError "scope").
Proof.
  split; [reflexivity|]. split.
  - set (this := Sample.relierWith false VNull "profile:email secret openid").
    destruct (@normalize_untrusted_and_empty Sample.constants this
                "profile:email secret openid" eq_refl) as (Hfilter & _ & _).
    unfold Sample.normalizedPermissions. rewrite Hfilter; reflexivity.
  - destruct (@normalize_untrusted_and_empty Sample.constants
                (Sample.relierWith false VNull "secret") "secret" eq_refl)
      as (_ & Hempty & _).
    apply Hempty. reflexivity.
Defined.

End NormalisationExamples.

(** ** The stored scope and permissions *)

Section Consistency.
Context `{Constants}.
Import OAuthRelier.

Lemma normalizedPermissions_NoDup (this : Attrs) (scope : string) :
  NoDup (normalizedPermissions this scope).
Proof.
  unfold normalizedPermissions.
  destruct (truthy (isTrusted this)); [destruct (wantsConsent this)|].
  - apply replaceItemInArray_NoDup, scopeStrToArray_NoDup.
  - apply scopeStrToArray_NoDup.
  - apply intersection_NoDup.
Qed.

(** When normalisation succeeds, the stored scope is the stored
    permissions joined by single spaces, and the permissions are a
    non-empty list without duplicates. *)
Lemma normalize_consistent (this this' : Attrs) :
  _normalizeScopesAndPermissions this = inr this' →
  ∃ permissions,
    Model.get this' "permissions" = VArray permissions
    ∧ Model.get this' "scope" = VStr (JsString.join " " permissions)
    ∧ NoDup permissions
    ∧ permissions ≠ [].
Proof.
  unfold _normalizeScopesAndPermissions.
  destruct (Model.get this "scope") as [| | |scope|]; try discriminate.
  case_bool_decide as Hlen; [discriminate|].
  intros [= <-]. exists (normalizedPermissions this scope).
  unfold Model.get, Model.set.
  rewrite lookup_insert_eq, lookup_insert_ne, lookup_insert_eq by done.
  repeat split; [apply normalizedPermissions_NoDup|].
  intros Hnil. by rewrite Hnil in Hlen.
Qed.

End Consistency.

(** ** Splitting and joining *)

Section SplitJoin.
Import JsString.

Lemma string_app_nil_r (s : string) : s +:+ "" = s.
Proof. induction s as [|c s IH]; [done|]. change (String c (s +:+ "") = String c s). by rewrite IH. Qed.

Lemma string_app_assoc (s t u : string) : (s +:+ t) +:+ u = s +:+ (t +:+ u).
Proof.
  induction s as [|c s IH]; [done|].
  change (String c ((s +:+ t) +:+ u) = String c (s +:+ (t +:+ u))). by rewrite IH.
Qed.

Lemma whitespaceFree_cons (c : ascii) (t : string) :
  whitespaceFree (String c t) ↔ WhiteSpace c = false ∧ whitespaceFree t.
Proof. unfold whitespaceFree. simpl. by rewrite Forall_cons. Qed.

Lemma whitespaceFree_app (s t : string) :
  whitespaceFree s → whitespaceFree t → whitespaceFree (s +:+ t).
Proof.
  intros Hs Ht. induction s as [|c s IH]; [done|].
  apply whitespaceFree_cons in Hs as [Hc Hs].
  change (whitespaceFree (String c (s +:+ t))).
  apply whitespaceFree_cons. auto.
Qed.

(** Reading a token moves it to the piece being read. *)
Lemma split_loop_token (in_sep : bool) (cur t rest : string) :
  isToken t →
  split_loop in_sep cur (t +:+ rest) = split_loop false (cur +:+ t) rest.
Proof.
  intros [Hne Hfree]. revert in_sep cur.
  induction t as [|c t IH]; intros in_sep cur; [done|].
  apply whitespaceFree_cons in Hfree as [Hc Hfree].
  change (split_loop in_sep cur (String c (t +:+ rest))
          = split_loop false (cur +:+ String c t) rest).
  simpl. rewrite Hc.
  destruct t as [|c' t].
  - done.
  - rewrite IH by done. f_equal. by rewrite string_app_assoc.
Qed.

(** Joined by single spaces, a list of tokens splits into itself. *)
Lemma split_join (in_sep : bool) (l : list string) :
  l ≠ [] → Forall isToken l →
  split_loop in_sep "" (join " " l) = l.
Proof.
  intros Hne Hall. revert in_sep.
  induction Hall as [|x l Hx Hl IH]; intros in_sep; [done|].
  destruct l as [|y l].
  - simpl. rewrite <- (string_app_nil_r x) at 1.
    by rewrite split_loop_token.
  - change (join " " (x :: y :: l)) with (x +:+ " " +:+ join " " (y :: l)).
    rewrite split_loop_token by done.
    change (" " +:+ join " " (y :: l)) with (String " " (join " " (y :: l))).
    simpl split_loop. change ("" +:+ x) with x. f_equal. by apply IH.
Qed.

Lemma split_loop_whitespaceFree (in_sep : bool) (cur s : string) :
  whitespaceFree cur → Forall whitespaceFree (split_loop in_sep cur s).
Proof.
  revert in_sep cur. induction s as [|c s IH]; intros in_sep cur Hcur; simpl.
  - by constructor.
  - destruct (WhiteSpace c) eqn:Hc.
    + destruct in_sep; [by apply IH|]. constructor; [done|]. apply IH. constructor.
    + apply IH, whitespaceFree_app; [done|].
      apply whitespaceFree_cons. split; [done|constructor].
Qed.

Lemma trimEnd_tail (c : ascii) (s : string) :
  trimEnd (String c s) = String c s →
  trimEnd s = s ∧ (WhiteSpace c = true → s ≠ "").
Proof.
  simpl. destruct (trimEnd s) as [|c' kept] eqn:Hs.
  - destruct (WhiteSpace c); [done|]. intros [= <-]. done.
  - intros [= <-]. done.
Qed.

Lemma string_app_nonempty (cur : string) (c : ascii) : cur +:+ String c "" ≠ "".
Proof. by destruct cur. Qed.

(** The pieces of a string that does not end in white space are not empty,
    once the piece being read is not empty or a token comes next. *)
Lemma split_loop_nonempty (in_sep : bool) (cur s : string) :
  trimEnd s = s →
  (if in_sep then s ≠ ""
   else cur ≠ "" ∨ ∃ c rest, s = String c rest ∧ WhiteSpace c = false) →
  Forall (λ t, t ≠ "") (split_loop in_sep cur s).
Proof.
  revert in_sep cur. induction s as [|c s IH]; intros in_sep cur Hend Hstart.
  - destruct in_sep; [done|]. constructor; [|done].
    destruct Hstart as [?|(? & ? & ? & _)]; done.
  - apply trimEnd_tail in Hend as [Hend Hlast]. simpl.
    destruct (WhiteSpace c) eqn:Hc.
    + destruct in_sep.
      * apply IH; auto.
      * constructor; [|apply IH; auto].
        destruct Hstart as [?|(? & ? & [= <- <-] & ?)]; [done|congruence].
    + apply IH; [done|]. left. apply string_app_nonempty.
Qed.

(** The pieces of a non-empty string with no white space at either end
    are tokens. *)
Lemma split_whitespace_tokens (s : string) :
  s ≠ "" → trimStart s = s → trimEnd s = s →
  Forall isToken (split_whitespace s).
Proof.
  intros Hne Hstart Hend. unfold split_whitespace, isToken.
  apply Forall_and. split.
  - apply split_loop_nonempty; [done|]. right.
    destruct s as [|c rest]; [done|]. exists c, rest. split; [done|].
    simpl in Hstart. destruct (WhiteSpace c) eqn:Hc; [|done].
    exfalso.
    assert (∀ t, String.length (trimStart t) ≤ String.length t)%nat as Hlen.
    { induction t as [|c' t IHt]; simpl; [lia|]. destruct (WhiteSpace c'); simpl; lia. }
    specialize (Hlen rest). rewrite Hstart in Hlen. simpl in Hlen. lia.
  - apply split_loop_whitespaceFree. constructor.
Qed.

(** A string that begins with a token does not trim to nothing. *)
Lemma trim_join_tokens (l : list string) :
  l ≠ [] → Forall isToken l → String.length (trim (join " " l)) ≠ 0.
Proof.
  intros Hne Hall. destruct Hall as [|x l [Hx Hfree] Hl]; [done|].
  destruct x as [|c x]; [done|]. apply whitespaceFree_cons in Hfree as [Hc _].
  assert (∃ rest, join " " (String c x :: l) = String c rest) as [rest ->].
  { destruct l; simpl; eauto. }
  unfold trim. simpl trimStart. rewrite Hc. simpl.
  destruct (trimEnd rest); [by rewrite Hc|done].
Qed.

End SplitJoin.

(** ** Normalising a normalised scope *)

Section RoundTrip.
Context `{Constants}.
Import OAuthRelier.

Lemma filter_all (P : string → Prop) `{∀ x, Decision (P x)} (l : list string) :
  Forall P l → filter P l = l.
Proof.
  induction 1 as [|x l Hx _ IH]; [done|].
  by rewrite filter_cons_True, IH.
Qed.

Lemma intersection_elem (x : string) (array other : list string) :
  x ∈ Underscore.intersection array other ↔ x ∈ array ∧ x ∈ other.
Proof.
  unfold Underscore.intersection. rewrite intersection_loop_filter. simpl.
  rewrite list_elem_of_filter, firstOccurrences_elem, elem_of_nil. naive_solver.
Qed.

Lemma replaceItemInArray_elem (x : string) (array : list string) item replaceWith :
  x ∈ replaceItemInArray array item replaceWith →
  (x ∈ array ∧ (item ∈ array → x ≠ item)) ∨ (item ∈ array ∧ x ∈ replaceWith).
Proof.
  destruct (decide (item ∈ array)) as [Hin|Hnot].
  - unfold replaceItemInArray.
    rewrite bool_decide_true by (by rewrite without_length).
    unfold Underscore.union.
    rewrite uniq_elem, elem_of_app, without_elem. naive_solver.
  - rewrite replaceItemInArray_absent by done. naive_solver.
Qed.

Lemma scopeStrToArray_tokens (scope : string) :
  JsString.trimStart scope = scope → JsString.trimEnd scope = scope →
  Forall isToken (scopeStrToArray scope).
Proof.
  intros Hstart Hend. unfold scopeStrToArray.
  case_bool_decide as Hlen; [|constructor].
  assert (scope ≠ "") as Hne.
  { intros Heq. rewrite Heq in Hlen. apply Hlen. reflexivity. }
  apply Forall_forall. intros x Hx. rewrite uniq_elem in Hx.
  pose proof (split_whitespace_tokens scope Hne Hstart Hend) as Htokens.
  rewrite Forall_forall in Htokens. by apply Htokens.
Qed.

Lemma normalizedPermissions_tokens (this : Attrs) (scope : string) :
  JsString.trimStart scope = scope → JsString.trimEnd scope = scope →
  Forall isToken OAUTH_TRUSTED_PROFILE_SCOPE_EXPANSION →
  Forall isToken (normalizedPermissions this scope).
Proof.
  intros Hstart Hend Hexpansion.
  pose proof (scopeStrToArray_tokens scope Hstart Hend) as Htokens.
  rewrite Forall_forall in Htokens, Hexpansion.
  unfold normalizedPermissions.
  destruct (truthy (isTrusted this)); [destruct (wantsConsent this)|].
  - apply Forall_forall. intros x Hx.
    apply replaceItemInArray_elem in Hx. naive_solver.
  - by apply Forall_forall.
  - apply Forall_forall. intros x [Hx _]%intersection_elem. auto.
Qed.

Lemma scopeStrToArray_join (l : list string) :
  l ≠ [] → Forall isToken l → NoDup l →
  scopeStrToArray (JsString.join " " l) = l.
Proof.
  intros Hne Htokens Hnd. unfold scopeStrToArray.
  rewrite bool_decide_true by (by apply trim_join_tokens).
  unfold JsString.split_whitespace. rewrite split_join by done.
  by apply uniq_id.
Qed.

(** The policy of the relier leaves its own result as it is. *)
Lemma normalizedPermissions_fixed (this later : Attrs) (scope : string) :
  isTrusted later = isTrusted this → wantsConsent later = wantsConsent this →
  OAUTH_TRUSTED_PROFILE_SCOPE ∉ OAUTH_TRUSTED_PROFILE_SCOPE_EXPANSION →
  let permissions := normalizedPermissions this scope in
  permissions ≠ [] → Forall isToken permissions →
  normalizedPermissions later (JsString.join " " permissions) = permissions.
Proof.
  intros Htrusted Hconsent Hprofile permissions Hne Htokens.
  assert (NoDup permissions) as Hnd by apply normalizedPermissions_NoDup.
  unfold normalizedPermissions at 1.
  rewrite scopeStrToArray_join, Htrusted, Hconsent by done.
  subst permissions. unfold normalizedPermissions in *.
  destruct (truthy (isTrusted this)); [destruct (wantsConsent this)|].
  - apply replaceItemInArray_absent. intros Hin.
    apply replaceItemInArray_elem in Hin. naive_solver.
  - done.
  - unfold sanitizeUntrustedPermissions in *.
    rewrite intersection_NoDup_l by done. apply filter_all.
    apply Forall_forall. by intros x [_ Hx]%intersection_elem.
Qed.

(** For a scope without white space at either end, and an expansion list
    of tokens that does not name the expandable token, what normalisation
    stores is stored again unchanged by a second normalisation: the scope
    round-trips. *)
Theorem normalize_idempotent (this once : Attrs) (scope : string) :
  Model.get this "scope" = VStr scope →
  JsString.trimStart scope = scope → JsString.trimEnd scope = scope →
  Forall isToken OAUTH_TRUSTED_PROFILE_SCOPE_EXPANSION →
  OAUTH_TRUSTED_PROFILE_SCOPE ∉ OAUTH_TRUSTED_PROFILE_SCOPE_EXPANSION →
  _normalizeScopesAndPermissions this = inr once →
  _normalizeScopesAndPermissions once = inr once.
Proof.
  intros Hscope Hstart Hend Hexpansion Hprofile.
  unfold _normalizeScopesAndPermissions at 1. rewrite Hscope.
  case_bool_decide as Hlen; [discriminate|]. intros [= <-].
  set (permissions := normalizedPermissions this scope) in *.
  assert (permissions ≠ []) as Hne by (by intros Hnil; rewrite Hnil in Hlen).
  assert (Forall isToken permissions) as Htokens
    by (by apply normalizedPermissions_tokens).
  set (once := Model.set (Model.set this "scope" (VStr (JsString.join " " permissions)))
                 "permissions" (VArray permissions)).
  assert (Model.get once "scope" = VStr (JsString.join " " permissions)) as Honce.
  { unfold once, Model.get, Model.set.
    by rewrite lookup_insert_ne, lookup_insert_eq. }
  assert (normalizedPermissions once (JsString.join " " permissions) = permissions)
    as Hfixed.
  { apply normalizedPermissions_fixed; try done.
    - unfold once, isTrusted, Model.get, Model.set.
      by rewrite !lookup_insert_ne.
    - unfold once, wantsConsent, Model.get, Model.set.
      by rewrite !lookup_insert_ne. }
  unfold _normalizeScopesAndPermissions. rewrite Honce, Hfixed.
  rewrite bool_decide_false by done. f_equal.
  unfold once, Model.set.
  rewrite (insert_insert_ne _ "scope" "permissions") by done.
  by rewrite !insert_insert_eq.
Qed.

End RoundTrip.

Lemma normalize_idempotent_example :
  let this := Sample.relierWith true (VStr "consent") "openid profile" in
  let once := Result_value ∅ (Sample.normalize this) in
  Sample.normalize this = inr once ∧ Sample.normalize once = inr once.
Proof.
  intros this once.
  assert (Sample.normalize this = inr once) as Hnormalize
    by (apply Result_value_ok; vm_compute; reflexivity).
  split; [exact Hnormalize|].
  apply (@normalize_idempotent Sample.constants this once "openid profile").
  - reflexivity.
  - reflexivity.
  - reflexivity.
  - repeat constructor; vm_compute; discriminate.
  - apply (bool_decide_unpack _); vm_compute; exact I.
  - exact Hnormalize.
Defined.

(** ** The resolution flow *)

Section ResolutionFlow.
Context `{Constants} `{VatFormats}.
Variable env : RelierEnv.
Import OAuthRelier.

(** C2, as the code has it.  On the sign-in/sign-up path the query
    parameters are imported through the schema before [service] is looked
    at.  With a non-empty [service] parameter the flow always fails: with
    the error of the import when the other parameters do not pass the
    schema, and with INVALID_PARAMETER on [service] when they do. *)
Theorem signInSignUp_service_rejected (this0 this1 : Attrs) :
  truthy (getSearchParam env "service") = true →
  let outcome : Result Attrs :=
    match importSearchParamsUsingSchema env this1 SIGNIN_SIGNUP_QUERY_PARAM_SCHEMA with
    | inl err => inl err
    | inr _ => inl (OAuthErrors.toInvalidParameterError "service")
    end in
  _setupSignInSignUpFlow env this1 = outcome
  ∧ (_isVerificationFlow env = false →
     Relier_fetch env this0 = inr this1 →
     fetch env this0 = outcome).
Proof.
  intros Hservice outcome.
  assert (_setupSignInSignUpFlow env this1 = outcome) as Hsetup.
  { unfold _setupSignInSignUpFlow, outcome, Result_bind.
    destruct (importSearchParamsUsingSchema _ _ _); [done|].
    by rewrite Hservice. }
  split; [done|].
  intros Hflow Hbase. unfold fetch, fetch_importParams.
  rewrite Hbase, Hflow. simpl. rewrite Hsetup.
  unfold outcome. by destruct (importSearchParamsUsingSchema _ _ _).
Qed.

Lemma normalize_error_kind (this : Attrs) (err : Error) :
  fetch_normalize this = inl err → kind err = INVALID_PARAMETER ∨ kind err = TypeError.
Proof.
  unfold fetch_normalize, _normalizeScopesAndPermissions.
  destruct (Model.has this "scope"); [|discriminate].
  destruct (Model.get this "scope"); try (intros [= <-]; by right).
  case_bool_decide; [|discriminate]. intros [= <-]. by left.
Qed.

(** C6.  Let the base fetch and the import of the parameters succeed,
    and let the client registry answer with a record that passes the
    client-info schema.  If the redirect URI of that record differs from
    the one the relier holds from the request, then on the sign-in/sign-up
    path the flow fails with INCORRECT_REDIRECT, and on the verification
    path the record is stored and the flow goes on to normalisation: it
    cannot fail with INCORRECT_REDIRECT. *)
Theorem redirect_cross_validation (this0 this1 this2 serviceInfo result : Attrs) :
  Relier_fetch env this0 = inr this1 →
  fetch_importParams env this1 = inr this2 →
  getClientInfo env (Model.get this2 "clientId") = inr serviceInfo →
  Transform.transformUsingSchema serviceInfo CLIENT_INFO_SCHEMA = inr result →
  Model.get result "redirectUri" ≠ Model.get this2 "redirectUri" →
  (_isVerificationFlow env = false →
   _setupOAuthRPInfo env this2 false = inl (OAuthErrors.toError INCORRECT_REDIRECT)
   ∧ fetch env this0 = inl (OAuthErrors.toError INCORRECT_REDIRECT))
  ∧ (_isVerificationFlow env = true →
     _setupOAuthRPInfo env this2 true = inr (Model.setAll this2 result)
     ∧ fetch env this0 = fetch_normalize (Model.setAll this2 result)
     ∧ ∀ err, fetch env this0 = inl err → kind err ≠ INCORRECT_REDIRECT).
Proof.
  intros Hbase Himport Hinfo Hschema Hdiffer.
  assert (∀ verificationFlow,
    _setupOAuthRPInfo env this2 verificationFlow
    = if verificationFlow then inr (Model.setAll this2 result)
      else inl (OAuthErrors.toError INCORRECT_REDIRECT)) as Hsetup.
  { intros verificationFlow. unfold _setupOAuthRPInfo.
    rewrite Hinfo, Hschema. simpl.
    rewrite bool_decide_true by done. by destruct verificationFlow. }
  split; intros Hflow.
  - split; [apply Hsetup|].
    unfold fetch. rewrite Hbase. simpl. rewrite Himport. simpl.
    by rewrite Hflow, Hsetup.
  - assert (fetch env this0 = fetch_normalize (Model.setAll this2 result)) as Hfetch.
    { unfold fetch. rewrite Hbase. simpl. rewrite Himport. simpl.
      by rewrite Hflow, Hsetup. }
    split; [apply Hsetup|]. split; [done|].
    intros err Herr. rewrite Hfetch in Herr.
    apply normalize_error_kind in Herr as [-> | ->]; discriminate.
Qed.

End ResolutionFlow.

Section ResolutionFlowExamples.
Import OAuthRelier.

Lemma signInSignUp_service_rejected_example :
  let env := Sample.relierEnv (("service", "dcdb5ae7add825d2") :: Sample.params) None in
  truthy (getSearchParam env "service") = true
  ∧ Sample.fetch (("service", "dcdb5ae7add825d2") :: Sample.params) None
    = inl (OAuthErrors.toInvalidParameterError "service").
Proof.
  split; [reflexivity|].
  set (env := Sample.relierEnv (("service", "dcdb5ae7add825d2") :: Sample.params) None).
  destruct (@signInSignUp_service_rejected Sample.constants Sample.formats env
              defaults defaults eq_refl) as [_ Hfetch].
  unfold Sample.fetch. fold env. rewrite Hfetch; reflexivity.
Defined.

(** C2 as stated fails: the other parameters matter.  A request on the
    sign-in/sign-up path carries [service] and nothing else; the import
    fails on the missing [client_id] before [service] is looked at. *)
Lemma service_with_missing_client_id :
  let env := Sample.relierEnv [("service", "dcdb5ae7add825d2")] None in
  _isVerificationFlow env = false
  ∧ getSearchParam env "service" = VStr "dcdb5ae7add825d2"
  ∧ @_setupSignInSignUpFlow Sample.formats env defaults
    = inl (OAuthErrors.toMissingParameterError "client_id")
  ∧ Sample.fetch [("service", "dcdb5ae7add825d2")] None
    = inl (OAuthErrors.toMissingParameterError "client_id")
  ∧ Sample.fetch [("service", "dcdb5ae7add825d2")] None
    ≠ inl (OAuthErrors.toInvalidParameterError "service").
Proof. repeat split; try reflexivity. vm_compute. discriminate. Qed.

Lemma redirect_cross_validation_example :
  Sample.fetch Sample.params_other_redirect None
  = inl (OAuthErrors.toError INCORRECT_REDIRECT)
  ∧ Sample.attr "redirectUri"
      (Sample.fetch Sample.params_verification (Some Sample.session))
    = inr (VStr "https://123done.org/api/oauth").
Proof.
  split.
  - set (env := Sample.relierEnv Sample.params_other_redirect None).
    destruct (@redirect_cross_validation Sample.constants Sample.formats env
                defaults defaults
                (Result_value ∅ (@fetch_importParams Sample.formats env defaults))
                Sample.clientInfo
                (Result_value ∅ (Transform.transformUsingSchema Sample.clientInfo
                                   (@CLIENT_INFO_SCHEMA Sample.formats))))
      as [Hsignin _].
    + reflexivity.
    + apply Result_value_ok. vm_compute. reflexivity.
    + reflexivity.
    + apply Result_value_ok. vm_compute. reflexivity.
    + vm_compute. discriminate.
    + apply Hsignin. reflexivity.
  - set (env := Sample.relierEnv Sample.params_verification (Some Sample.session)).
    destruct (@redirect_cross_validation Sample.constants Sample.formats env
                defaults defaults
                (Result_value ∅ (@fetch_importParams Sample.formats env defaults))
                Sample.clientInfo
                (Result_value ∅ (Transform.transformUsingSchema Sample.clientInfo
                                   (@CLIENT_INFO_SCHEMA Sample.formats))))
      as [_ Hverification].
    + reflexivity.
    + apply Result_value_ok. vm_compute. reflexivity.
    + reflexivity.
    + apply Result_value_ok. vm_compute. reflexivity.
    + vm_compute. discriminate.
    + destruct (Hverification eq_refl) as (_ & Hfetch & _).
      unfold Sample.fetch. fold env. rewrite Hfetch.
      vm_compute. reflexivity.
Defined.

End ResolutionFlowExamples.

(** ** The outcome of a successful sign-in *)

Section SignInSuccess.
Context `{VerificationMethods} `{VerificationReasons}.
Variable this : View.
Import SignInMixin.

Lemma navigate_run (url : string) (data : NavigateData) (w : World) :
  navigate url data w = (World_record w (Navigate url data), inr VUndefined).
Proof. reflexivity. Qed.

(** C7.  For an account that is not verified, [onSignInSuccess] navigates
    to one screen, chosen by the verification reason and method of the
    account: [confirm_signin] for sign-in by email link,
    [signin_token_code] for sign-in by email code, [signin_totp_code] for
    sign-in by TOTP code, and [confirm] for every other pair.  The three
    method constants are taken to be distinct. *)
Theorem onSignInSuccess_unverified (account : Account) (w : World) :
  truthy (Model.get (account_attrs account) "verified") = false →
  EMAIL ≠ EMAIL_2FA → EMAIL ≠ TOTP_2FA → EMAIL_2FA ≠ TOTP_2FA →
  let reason := Model.get (account_attrs account) "verificationReason" in
  let method := Model.get (account_attrs account) "verificationMethod" in
  let step url := (World_record w (Navigate url (AccountData account)), inr VUndefined) in
  (reason = VStr SIGN_IN → method = VStr EMAIL →
   onSignInSuccess this account w = step "confirm_signin")
  ∧ (reason = VStr SIGN_IN → method = VStr EMAIL_2FA →
     onSignInSuccess this account w = step "signin_token_code")
  ∧ (reason = VStr SIGN_IN → method = VStr TOTP_2FA →
     onSignInSuccess this account w = step "signin_totp_code")
  ∧ (¬ (reason = VStr SIGN_IN
        ∧ (method = VStr EMAIL ∨ method = VStr EMAIL_2FA ∨ method = VStr TOTP_2FA)) →
     onSignInSuccess this account w = step "confirm").
Proof.
  intros Hunverified Hne1 Hne2 Hne3 reason method step.
  unfold onSignInSuccess. rewrite Hunverified. simpl.
  fold reason method. unfold step. rewrite <- !navigate_run.
  repeat split.
  - intros -> ->. repeat case_bool_decide; simpl; congruence.
  - intros -> ->. repeat case_bool_decide; simpl; congruence.
  - intros -> ->. repeat case_bool_decide; simpl; congruence.
  - intros Hother. repeat case_bool_decide; simpl; try done; naive_solver.
Qed.

(** C8.  For a verified account, [onSignInSuccess] ends by invoking the
    post-sign-in broker method and settles with what that call settles
    with.  The [uid] of the relier is set to the one of the account when
    the two differ and the broker has the capability [allowUidChange];
    in every other case the relier is left as it was. *)
Theorem onSignInSuccess_verified (account : Account) (w : World) :
  truthy (Model.get (account_attrs account) "verified") = true →
  let uid := Model.get (account_attrs account) "uid" in
  let update :=
    bool_decide (uid ≠ Model.get (relier w) "uid")
    && hasCapability this "allowUidChange" in
  let brokerMethod := afterSignIn_brokerMethod this in
  ∃ before : World,
    onSignInSuccess this account w
    = (World_record before (InvokeBrokerMethod brokerMethod account),
       brokerMethodResult this before brokerMethod account)
    ∧ relier (onSignInSuccess this account w).1 = relier before
    ∧ relier before
      = (if update then Model.set (relier w) "uid" uid else relier w)
    ∧ (update = false → relier (onSignInSuccess this account w).1 = relier w).
Proof.
  intros Hverified uid update brokerMethod.
  unfold onSignInSuccess. rewrite Hverified. simpl.
  fold uid brokerMethod.
  unfold mbind, Promise_bind, Promise.then_, Promise.getWorld, Promise.emit,
    Promise.call, invokeBrokerMethod, Promise.setRelier, Promise.setModel,
    mret, Promise_ret, Promise.resolve, Promise.call.
  fold update. simpl.
  destruct update; simpl;
    destruct (truthy (Model.get (model w) "redirectTo")); simpl;
    eexists; (split; [reflexivity|]); simpl; done.
Qed.

End SignInSuccess.

(** ** Invariants along a promise chain *)

Section Keeps.
Variable Inv : Attrs → Prop.
Variable Allowed : Event → Prop.

Lemma keeps_resolve {A} (a : A) : keeps Inv Allowed (Promise.resolve a).
Proof.
  intros w Hinv. split; [done|]. exists []. by rewrite app_nil_r.
Qed.

Lemma keeps_mret {A} (a : A) : keeps Inv Allowed (mret a).
Proof. apply keeps_resolve. Qed.

Lemma keeps_reject {A} (err : AuthError) :
  keeps Inv Allowed (Promise.reject (A:=A) err).
Proof.
  intros w Hinv. split; [done|]. exists []. by rewrite app_nil_r.
Qed.

Lemma keeps_call {A} (ev : Event) (settle : World → sum AuthError A) :
  Allowed ev → keeps Inv Allowed (Promise.call ev settle).
Proof.
  intros Hev w Hinv. split; [done|]. exists [ev]. split; [done|].
  by constructor.
Qed.

Lemma keeps_emit (ev : Event) : Allowed ev → keeps Inv Allowed (Promise.emit ev).
Proof. apply keeps_call. Qed.

Lemma keeps_setModel (m : Attrs) : keeps Inv Allowed (Promise.setModel m).
Proof.
  intros w Hinv. split; [done|]. exists []. by rewrite app_nil_r.
Qed.

Lemma keeps_setAccountObj (a : option Account) :
  keeps Inv Allowed (Promise.setAccountObj a).
Proof.
  intros w Hinv. split; [done|]. exists []. by rewrite app_nil_r.
Qed.

Lemma keeps_setRelier (r : Attrs) : Inv r → keeps Inv Allowed (Promise.setRelier r).
Proof.
  intros Hr w Hinv. split; [done|]. exists []. by rewrite app_nil_r.
Qed.

Lemma keepsAt_then {A B} (p : Promise A) (f : A → Promise B) (w : World) :
  keepsAt Inv Allowed p w →
  (∀ a, p w = ((p w).1, inr a) → keepsAt Inv Allowed (f a) (p w).1) →
  keepsAt Inv Allowed (p ≫= f) w.
Proof.
  intros Hp Hf Hinv. destruct (Hp Hinv) as (Hinv1 & events1 & Htrace1 & Hall1).
  unfold mbind, Promise_bind, Promise.then_.
  destruct (p w) as [w1 [err|a]] eqn:Hrun; simpl in *.
  - split; [done|]. by exists events1.
  - destruct (Hf a eq_refl Hinv1) as (Hinv2 & events2 & Htrace2 & Hall2).
    split; [done|]. exists (events1 ++ events2).
    rewrite Htrace2, Htrace1, app_assoc. split; [done|].
    by apply Forall_app.
Qed.

Lemma keeps_then {A B} (p : Promise A) (f : A → Promise B) :
  keeps Inv Allowed p → (∀ a, keeps Inv Allowed (f a)) →
  keeps Inv Allowed (p ≫= f).
Proof. intros Hp Hf w. apply keepsAt_then; [apply Hp|]. intros a _. apply Hf. Qed.

(** What follows a read of the world runs in the world that was read. *)
Lemma keeps_getWorld {A} (f : World → Promise A) :
  (∀ w, Inv (relier w) → keepsAt Inv Allowed (f w) w) →
  keeps Inv Allowed (Promise.getWorld ≫= f).
Proof. intros Hf w Hinv. by apply (Hf w). Qed.

Lemma keeps_catch {A} (p : Promise A) (handler : AuthError → Promise A) :
  keeps Inv Allowed p → (∀ err, keeps Inv Allowed (handler err)) →
  keeps Inv Allowed (Promise.catch p handler).
Proof.
  intros Hp Hh w Hinv. destruct (Hp w Hinv) as (Hinv1 & events1 & Htrace1 & Hall1).
  unfold Promise.catch.
  destruct (p w) as [w1 [err|a]] eqn:Hrun; simpl in *.
  - destruct (Hh err w1 Hinv1) as (Hinv2 & events2 & Htrace2 & Hall2).
    split; [done|]. exists (events1 ++ events2).
    rewrite Htrace2, Htrace1, app_assoc. split; [done|].
    by apply Forall_app.
  - split; [done|]. by exists events1.
Qed.

End Keeps.

(** ** Permissions and the consent screen *)

Section Permissions.
Context `{Constants} `{VerificationMethods} `{VerificationReasons}.
Import OAuthRelier SignInMixin.

Lemma skipsConsent_set_uid (r : Attrs) (uid : value) :
  skipsConsent r → skipsConsent (Model.set r "uid" uid).
Proof.
  unfold skipsConsent, isTrusted, wantsConsent, Model.get, Model.set.
  by rewrite !lookup_insert_ne by done.
Qed.

Lemma keeps_navigate (this : View) (url : string) (data : NavigateData) :
  url ≠ "signin_permissions" →
  keeps skipsConsent notPermissionsScreen (navigate url data).
Proof.
  intros Hurl. apply keeps_then; [|intros; apply keeps_mret].
  apply keeps_emit. intros data'. congruence.
Qed.

Lemma keeps_invokeBrokerMethod (this : View) (method : string) (account : Account) :
  keeps skipsConsent notPermissionsScreen (invokeBrokerMethod this method account).
Proof. by apply keeps_call. Qed.

Lemma keeps_onSignInSuccess (this : View) (account : Account) :
  keeps skipsConsent notPermissionsScreen (onSignInSuccess this account).
Proof.
  unfold onSignInSuccess.
  destruct (negb (truthy (Model.get (account_attrs account) "verified"))).
  - repeat case_match; by apply keeps_navigate.
  - apply keeps_getWorld. intros w Hinv.
    apply keepsAt_then.
    { case_match; [|apply keeps_mret].
      by apply keeps_setRelier, skipsConsent_set_uid. }
    intros _ _. apply keeps_then; [by apply keeps_emit|]. intros _.
    apply keeps_then; [by apply keeps_emit|]. intros _.
    apply keeps_then; [by apply keeps_emit|]. intros _.
    apply keeps_getWorld. intros w' Hinv'.
    apply keepsAt_then.
    { case_match; [|apply keeps_mret].
      apply keeps_then; [apply keeps_setModel|]. intros _. by apply keeps_emit. }
    intros _ _. apply keeps_invokeBrokerMethod.
Qed.

Lemma keeps_onSignInBlocked (this : View) (account : Account) (password : value)
    (err : AuthError) :
  keeps skipsConsent notPermissionsScreen (onSignInBlocked this account password err).
Proof.
  unfold onSignInBlocked. case_match; [|apply keeps_reject].
  apply keeps_then; [by apply keeps_call|]. intros _. by apply keeps_navigate.
Qed.

Lemma keeps_signIn (this : View) (account : option Account)
    (password options_unblockCode : value) :
  relierAccountNeedsPermissions this = accountNeedsPermissions →
  keeps skipsConsent notPermissionsScreen
    (signIn this account password options_unblockCode).
Proof.
  intros Hrelier. unfold signIn.
  destruct account as [initial|]; [|apply keeps_reject].
  case_match; [apply keeps_reject|].
  apply keeps_then; [apply keeps_setAccountObj|]. intros _.
  apply keeps_catch.
  - unfold signIn_attempt.
    apply keeps_then; [apply keeps_invokeBrokerMethod|]. intros _.
    apply keeps_then; [by apply keeps_emit|]. intros _.
    apply keeps_then.
    { case_match; [|apply keeps_mret]. unfold discardSessionToken.
      apply keeps_then; [by apply keeps_emit|]. intros _.
      apply keeps_then; [apply keeps_setAccountObj|]. intros _. apply keeps_mret. }
    intros account. apply keeps_then; [by apply keeps_call|]. intros account'.
    apply keeps_then; [case_match; [by apply keeps_emit|apply keeps_mret]|].
    intros _. apply keeps_getWorld. intros w [Htrusted Hconsent].
    rewrite Hrelier. unfold accountNeedsPermissions.
    rewrite Htrusted, Hconsent. simpl. apply keeps_onSignInSuccess.
  - intros err. unfold signIn_onRejected, theAccount.
    apply keeps_then.
    { apply keeps_getWorld. intros w _. apply keeps_mret. }
    intros account'. repeat case_match;
      [apply keeps_onSignInBlocked|by apply keeps_navigate|apply keeps_reject].
Qed.

(** C10.  [accountNeedsPermissions] is false for every account when the
    relier is trusted and its prompt is not [consent]; for every other
    relier it is true exactly when the account has not seen, for the
    client id of the relier, those of the requested permissions it holds
    a value for.  On a view whose relier is an OAuth relier of the first
    kind, [signIn] makes no navigation to the permissions screen. *)
Theorem accountNeedsPermissions_spec (r : Attrs) (account : Account) :
  (skipsConsent r → accountNeedsPermissions r account = false)
  ∧ (¬ skipsConsent r →
     accountNeedsPermissions r account
     = negb (hasSeenPermissions account (Model.get r "clientId")
               (getPermissionsWithValues account (Model.get r "permissions"))))
  ∧ ∀ (this : View) (given : option Account) (password options_unblockCode : value)
      (w : World),
      relierAccountNeedsPermissions this = accountNeedsPermissions →
      relier w = r → skipsConsent r →
      ∃ events,
        trace (signIn this given password options_unblockCode w).1
        = trace w ++ events
        ∧ ∀ data, Navigate "signin_permissions" data ∉ events.
Proof.
  split; [|split].
  - intros [Htrusted Hconsent]. unfold accountNeedsPermissions.
    by rewrite Htrusted, Hconsent.
  - intros Hnot. unfold accountNeedsPermissions.
    destruct (truthy (isTrusted r)) eqn:Htrusted;
      destruct (wantsConsent r) eqn:Hconsent; simpl; try done.
    destruct Hnot. by split.
  - intros this given password options_unblockCode w Hrelier <- Hskips.
    destruct (keeps_signIn this given password options_unblockCode Hrelier w Hskips)
      as (_ & events & Htrace & Hallowed).
    exists events. split; [done|]. intros data Hin.
    rewrite Forall_forall in Hallowed. by apply (Hallowed _ Hin data).
Qed.

End Permissions.

(** ** A blocked sign-in *)

Section SignInBlocked.
Context `{VerificationMethods} `{VerificationReasons}.
Variable this : View.
Import SignInMixin.

Lemma Promise_run_eq {A} (p : Promise A) (w : World) (settled : sum AuthError A) :
  (p w).2 = settled → p w = ((p w).1, settled).
Proof. intros <-. by destruct (p w). Qed.

(** C3, as the code has it.  Let the chain of [signIn] reject with a
    THROTTLED or REQUEST_BLOCKED error.  Only when that error has the
    verification reason SIGN_IN and the verification method EMAIL_CAPTCHA
    is the unblock email sent: if the send succeeds the view navigates to
    [signin_unblock], and if it fails [signIn] rejects with the error of
    the send and navigates nowhere.  With any other reason or method
    nothing is sent and [signIn] rejects with the blocked error itself. *)
Theorem signIn_blocked (initial : Account) (password options_unblockCode : value)
    (w w1 : World) (err : AuthError) :
  isDefault initial
  || (negb (Model.has (account_attrs initial) "sessionToken") && negb (truthy password))
  = false →
  signIn_attempt this initial password options_unblockCode
    (Promise.setAccountObj (Some initial) w).1 = (w1, inl err) →
  AuthErrors.is_ err THROTTLED || AuthErrors.is_ err REQUEST_BLOCKED = true →
  let account := default initial (accountObj w1) in
  signIn this (Some initial) password options_unblockCode w
  = if bool_decide (verificationReason err = VStr SIGN_IN)
       && bool_decide (verificationMethod err = VStr EMAIL_CAPTCHA)
    then
      let sent := World_record w1 (SendUnblockEmail account) in
      match sendUnblockEmailResult this w1 account with
      | inr _ =>
          (World_record sent
             (Navigate "signin_unblock"
                (UnblockData account (currentPage this) password)),
           inr VUndefined)
      | inl sendErr => (sent, inl sendErr)
      end
    else (w1, inl err).
Proof.
  intros Hpre Hattempt Hblocked account.
  unfold signIn. rewrite Hpre.
  unfold mbind, Promise_bind, Promise.then_ at 1. simpl in *.
  unfold Promise.catch. rewrite Hattempt.
  unfold signIn_onRejected, theAccount.
  unfold mbind, Promise_bind, Promise.then_, Promise.getWorld, mret, Promise_ret,
    Promise.resolve.
  fold account. rewrite Hblocked.
  unfold onSignInBlocked. case_match; [|done].
  unfold mbind, Promise_bind, Promise.then_, Promise.call. simpl.
  by destruct (sendUnblockEmailResult this w1 account).
Qed.

End SignInBlocked.

(** ** The sign-in claims on a concrete view *)

Section SignInExamples.
Import SignInMixin.

Lemma signIn_blocked_example :
  let view :=
    Sample.view [] (λ _, inl (Sample.unblockable REQUEST_BLOCKED))
      (inl (AuthErrors.toError THROTTLED)) in
  Sample.run
    (Sample.signIn view (Some (Sample.account []))
       (VStr "password") VUndefined)
    Sample.world
  = (["broker.beforeSignIn"; "logFlowEvent attempt signin";
      "account.discardSessionToken"; "user.signInAccount";
      "account.sendUnblockEmail"],
     inl (AuthErrors.toError THROTTLED)).
Proof.
  intros view. unfold Sample.run, Sample.signIn.
  rewrite (@signIn_blocked Sample.methods Sample.reasons view (Sample.account [])
             (VStr "password") VUndefined Sample.world
             (@signIn_attempt Sample.methods Sample.reasons view (Sample.account [])
                (VStr "password") VUndefined
                (Promise.setAccountObj (Some (Sample.account [])) Sample.world).1).1
             (Sample.unblockable REQUEST_BLOCKED)).
  - vm_compute. reflexivity.
  - reflexivity.
  - apply Promise_run_eq. vm_compute. reflexivity.
  - reflexivity.
Defined.

(** C3 as stated fails: not every blocked sign-in is remedied.  The
    authentication call is rejected with REQUEST_BLOCKED and the error
    names no verification method.  No unblock email is sent, the view
    navigates nowhere, and [signIn] rejects with the blocked error. *)
Lemma signIn_blocked_without_remedy :
  let err := AuthErrors.toError REQUEST_BLOCKED in
  let view := Sample.view [] (λ _, inl err) (inr tt) in
  Sample.run
    (Sample.signIn view (Some (Sample.account []))
       (VStr "password") VUndefined)
    Sample.world
  = (["broker.beforeSignIn"; "logFlowEvent attempt signin";
      "account.discardSessionToken"; "user.signInAccount"],
     inl err).
Proof. vm_compute. reflexivity. Qed.

Lemma onSignInSuccess_unverified_example :
  let view := Sample.view [] (λ account, inr account) (inr tt) in
  let account :=
    Sample.account [("verified", VBool false);
                    ("verificationReason", VStr "login");
                    ("verificationMethod", VStr "totp-2fa")] in
  Sample.run (Sample.onSignInSuccess view account) Sample.world
  = (["navigate signin_totp_code"], inr VUndefined).
Proof.
  intros view account.
  destruct (@onSignInSuccess_unverified Sample.methods Sample.reasons view account
              Sample.world) as (_ & _ & Htotp & _).
  - reflexivity.
  - discriminate.
  - discriminate.
  - discriminate.
  - unfold Sample.run, Sample.onSignInSuccess.
    rewrite Htotp by reflexivity. reflexivity.
Defined.

Lemma onSignInSuccess_verified_example :
  let view := Sample.view [] (λ account, inr account) (inr tt) in
  let account := Sample.account [("verified", VBool true); ("uid", VStr "0c2e7ab1")] in
  Model.get (account_attrs account) "uid" ≠ Model.get (relier Sample.world) "uid"
  ∧ relier (Sample.onSignInSuccess view account Sample.world).1 = relier Sample.world
  ∧ (Sample.onSignInSuccess view account Sample.world).2 = inr (VStr "afterSignIn").
Proof.
  intros view account. split; [vm_compute; discriminate|].
  destruct (@onSignInSuccess_verified Sample.methods Sample.reasons view account
              Sample.world eq_refl) as (before & Hrun & _ & _ & Hunchanged).
  split; [apply Hunchanged; reflexivity|].
  unfold Sample.onSignInSuccess. rewrite Hrun. reflexivity.
Defined.

Lemma accountNeedsPermissions_example :
  let view := Sample.view [] (λ account, inr account) (inr tt) in
  let account := Sample.account [("verified", VBool true)] in
  @skipsConsent Sample.constants (relier Sample.world)
  ∧ @OAuthRelier.accountNeedsPermissions Sample.constants (relier Sample.world) account
    = false
  ∧ ∃ events,
      trace (Sample.signIn view (Some account) VNull VUndefined
               Sample.world).1
      = trace Sample.world ++ events
      ∧ ∀ data, Navigate "signin_permissions" data ∉ events.
Proof.
  intros view account.
  assert (@skipsConsent Sample.constants (relier Sample.world)) as Hskips
    by (split; reflexivity).
  destruct (@accountNeedsPermissions_spec Sample.constants Sample.methods
              Sample.reasons (relier Sample.world) account)
    as (Hfalse & _ & Hscreen).
  split; [done|]. split; [by apply Hfalse|].
  by apply Hscreen.
Defined.

End SignInExamples.

(** ** Scoped keys *)

Section ScopedKeysFacts.
Import ScopedKeys.
Variable config : Config.

(** The loop over the scopes either finds every scope of the table allowed
    for the redirect URI, and then tells whether there was one, or throws
    on one that is not. *)
Lemma forEach_scope_cases (redirectUri : value) (scopes : list string) (found : bool) :
  let validation := default ∅ (scopedKeysValidation config) in
  let listed := filter (λ s, is_Some (validation !! s)) scopes in
  (Forall (allowsRedirect config redirectUri) listed
   ∧ forEach_scope validation redirectUri scopes found
     = inr (found || bool_decide (listed ≠ [])))
  ∨ (Exists (λ s, ¬ allowsRedirect config redirectUri s) listed
     ∧ forEach_scope validation redirectUri scopes found
       = inl (Thrown_Error "Invalid redirect parameter")).
Proof.
  intros validation. revert found.
  induction scopes as [|scope rest IH]; intros found; simpl.
  - left. split; [constructor|]. by rewrite orb_false_r.
  - fold validation. destruct (validation !! scope) as [redirectUris|] eqn:Hlookup.
    + rewrite filter_cons_True by (by rewrite Hlookup).
      destruct (includes redirectUris redirectUri) eqn:Hincludes.
      * destruct (IH true) as [[Hall ->]|[Hex ->]].
        -- left. split.
           ++ constructor; [|done]. by exists redirectUris.
           ++ rewrite (bool_decide_true (_ :: _ ≠ [])) by done.
              by rewrite orb_true_r.
        -- right. split; [by apply Exists_cons_tl|done].
      * right. split; [|done]. apply Exists_cons_hd.
        intros (uris & Huris & Hinc). unfold validation in Hlookup. congruence.
    + rewrite filter_cons_False by (rewrite Hlookup; by intros [? ?]).
      apply IH.
Qed.

(** [wantsKeys] answers [true] exactly when scoped keys are enabled, the
    relier holds a [keysJwk], its scope is a non-empty string that names
    at least one scope of the validation table, and every scope of the
    table it names lists the redirect URI of the relier. *)
Theorem wantsKeys_true_iff (this : Attrs) :
  wantsKeys (Some config) this = inr true
  ↔ truthy (scopedKeysEnabled config) = true
    ∧ Model.has this "keysJwk" = true
    ∧ ∃ scope,
        Model.get this "scope" = VStr scope
        ∧ keyBearing config scope ≠ []
        ∧ Forall (allowsRedirect config (Model.get this "redirectUri"))
            (keyBearing config scope).
Proof.
  unfold wantsKeys, _validateKeyScopeRequest, keyBearing.
  destruct (truthy (scopedKeysEnabled config)); [|naive_solver].
  destruct (Model.has this "keysJwk"); simpl; [|naive_solver].
  destruct (Model.get this "scope") as [| | |scope|]; simpl; try naive_solver.
  - destruct b; naive_solver.
  - case_bool_decide as Hempty; simpl.
    + destruct (forEach_scope_cases (Model.get this "redirectUri")
                  (scopeStrToArray scope) false) as [[Hall ->]|[Hex ->]]; simpl.
      * case_bool_decide as Hlisted; simpl; [naive_solver|].
        split; [done|]. intros (_ & _ & scope' & [= <-] & Hne & _). done.
      * split; [done|]. intros (_ & _ & scope' & [= <-] & _ & Hall).
        apply Exists_exists in Hex as (s & Hs & Hnot).
        rewrite Forall_forall in Hall. naive_solver.
    + split; [done|]. intros (_ & _ & scope' & [= <-] & Hne & _).
      exfalso. apply Hne. by rewrite Hempty.
Qed.

(** [wantsKeys] answers [false] exactly when there is no configuration,
    scoped keys are not enabled, or the relier holds no [keysJwk]; the
    scope is not looked at in these cases.  With keys enabled and a
    [keysJwk], it answers [true] or throws. *)
Theorem wantsKeys_false_iff (given : option Config) (this : Attrs) :
  wantsKeys given this = inr false
  ↔ given = None
    ∨ (∃ c, given = Some c ∧ truthy (scopedKeysEnabled c) = false)
    ∨ Model.has this "keysJwk" = false.
Proof.
  unfold wantsKeys, _validateKeyScopeRequest.
  destruct given as [c|]; [|naive_solver].
  destruct (truthy (scopedKeysEnabled c)) eqn:Henabled; [|naive_solver].
  destruct (Model.has this "keysJwk"); simpl; [|naive_solver].
  split; [|intros [?|[(c' & [= <-] & Hc)|?]]; congruence]. intros Hfalse. exfalso.
  destruct (truthy (Model.get this "scope")); simpl in Hfalse; [|done].
  destruct (Model.get this "scope"); try done.
  destruct (forEach_scope _ _ _ _) as [|[|]]; done.
Qed.

(** A relier that asks for the key of a scope from a redirect URI the
    table does not list for it is refused: with keys enabled and a
    [keysJwk], [wantsKeys] throws "Invalid redirect parameter" exactly when
    the scope string names such a scope. *)
Theorem wantsKeys_invalid_redirect_iff (this : Attrs) (scope : string) :
  truthy (scopedKeysEnabled config) = true →
  Model.has this "keysJwk" = true →
  Model.get this "scope" = VStr scope →
  wantsKeys (Some config) this = inl (Thrown_Error "Invalid redirect parameter")
  ↔ ∃ s, s ∈ keyBearing config scope
         ∧ ¬ allowsRedirect config (Model.get this "redirectUri") s.
Proof.
  intros Henabled Hkeys Hscope.
  unfold wantsKeys, _validateKeyScopeRequest, keyBearing.
  rewrite Henabled, Hkeys, Hscope. simpl.
  case_bool_decide as Hempty; simpl.
  - destruct (forEach_scope_cases (Model.get this "redirectUri")
                (scopeStrToArray scope) false) as [[Hall ->]|[Hex ->]]; simpl.
    + rewrite Forall_forall in Hall.
      case_bool_decide; simpl; (split; [done|naive_solver]).
    + split; [|done]. intros _. by apply Exists_exists in Hex.
  - rewrite Hempty. split; [done|]. intros (s & Hs & _).
    by apply elem_of_nil in Hs.
Qed.

End ScopedKeysFacts.

(** ** The whole chain of [signIn] *)

Section SignInChain.
Context `{VerificationMethods} `{VerificationReasons}.
Variable this : View.
Import SignInMixin.

Lemma keeps_read (Inv : Attrs → Prop) (Allowed : Event → Prop) :
  keeps Inv Allowed Promise.getWorld.
Proof. intros w Hinv. split; [done|]. exists []. by rewrite app_nil_r. Qed.

Lemma keepsAt_getWorld {A} (Inv : Attrs → Prop) (Allowed : Event → Prop)
    (f : World → Promise A) (w : World) :
  (Inv (relier w) → keepsAt Inv Allowed (f w) w) →
  keepsAt Inv Allowed (Promise.getWorld ≫= f) w.
Proof. intros Hf Hinv. by apply Hf. Qed.

(** Follows the structure of a chain, leaving the conditions on its calls
    and on the reliers it sets. *)
Ltac keeps_go :=
  repeat (intros; lazymatch goal with
  | |- keeps _ _ (mret _) => apply keeps_mret
  | |- keeps _ _ (Promise.reject _) => apply keeps_reject
  | |- keeps _ _ (Promise.emit _) => apply keeps_emit
  | |- keeps _ _ (Promise.call _ _) => apply keeps_call
  | |- keeps _ _ (Promise.setModel _) => apply keeps_setModel
  | |- keeps _ _ (Promise.setAccountObj _) => apply keeps_setAccountObj
  | |- keeps _ _ (Promise.catch _ _) => apply keeps_catch
  | |- keeps _ _ (Promise.getWorld ≫= _) => apply keeps_getWorld
  | |- keeps _ _ (_ ≫= _) => apply keeps_then
  | |- keepsAt _ _ (mret _) _ => apply keeps_mret
  | |- keepsAt _ _ (Promise.reject _) _ => apply keeps_reject
  | |- keepsAt _ _ (Promise.emit _) _ => apply keeps_emit
  | |- keepsAt _ _ (Promise.call _ _) _ => apply keeps_call
  | |- keepsAt _ _ (Promise.setModel _) _ => apply keeps_setModel
  | |- keepsAt _ _ (Promise.setAccountObj _) _ => apply keeps_setAccountObj
  | |- keeps _ _ Promise.getWorld => apply keeps_read
  | |- keepsAt _ _ Promise.getWorld _ => apply keeps_read
  | |- keeps _ _ (Promise.setRelier _) => apply keeps_setRelier
  | |- keepsAt _ _ (Promise.setRelier _) _ => apply keeps_setRelier
  | |- keepsAt _ _ (Promise.getWorld ≫= _) _ => apply keepsAt_getWorld
  | |- keepsAt _ _ (_ ≫= _) _ => apply keepsAt_then
  | |- keeps _ _ (if _ then _ else _) => case_match
  | |- keepsAt _ _ (if _ then _ else _) _ => case_match
  | |- keeps _ _ (match _ with _ => _ end) => case_match
  end).

Ltac unfold_mixin :=
  unfold signIn, signIn_attempt, signIn_onRejected, onSignInSuccess, onSignInBlocked,
    navigate, invokeBrokerMethod, discardSessionToken, theAccount.

(** The preconditions of [signIn] are checked before anything is done:
    without an account, with a default account, or with neither a session
    token nor a password, the promise is rejected with UNEXPECTED_ERROR and
    no collaborator has been called. *)
Theorem signIn_precondition (account : option Account) (password code : value)
    (w : World) :
  (∀ a, account = Some a →
        isDefault a = true
        ∨ (Model.has (account_attrs a) "sessionToken" = false
           ∧ truthy password = false)) →
  signIn this account password code w = (w, inl (AuthErrors.toError UNEXPECTED_ERROR)).
Proof.
  intros Hpre. unfold signIn. destruct account as [a|]; [|done].
  destruct (Hpre a eq_refl) as [->|[-> ->]]; [done|].
  by rewrite orb_true_r.
Qed.

(** The handlers of a rejection make no authentication call. *)
Lemma keeps_onRejected_notSignInAccount (initial : Account) (password : value)
    (err : AuthError) :
  keeps (λ _, True) notSignInAccount (signIn_onRejected this initial password err).
Proof. unfold_mixin. keeps_go; intros ???; discriminate. Qed.

(** When the broker rejects [beforeSignIn], [signIn] goes to its rejection
    handler at once: the authentication call is never made. *)
Theorem signIn_beforeSignIn_rejected (initial : Account) (password code : value)
    (w : World) (err : AuthError) :
  isDefault initial
  || (negb (Model.has (account_attrs initial) "sessionToken") && negb (truthy password))
  = false →
  let w0 := (Promise.setAccountObj (Some initial) w).1 in
  brokerMethodResult this w0 "beforeSignIn" initial = inl err →
  signIn this (Some initial) password code w
  = signIn_onRejected this initial password err
      (World_record w0 (InvokeBrokerMethod "beforeSignIn" initial))
  ∧ ∃ events,
      trace (signIn this (Some initial) password code w).1 = trace w ++ events
      ∧ ∀ account password' options,
          SignInAccount account password' options ∉ events.
Proof.
  intros Hpre w0 Hbroker.
  assert (signIn this (Some initial) password code w
          = signIn_onRejected this initial password err
              (World_record w0 (InvokeBrokerMethod "beforeSignIn" initial))) as Hrun.
  { unfold signIn. rewrite Hpre.
    unfold signIn_attempt, invokeBrokerMethod.
    unfold mbind, Promise_bind, Promise.then_, Promise.catch, Promise.call.
    unfold w0 in *. simpl in *. by rewrite Hbroker. }
  split; [done|]. rewrite Hrun.
  destruct (keeps_onRejected_notSignInAccount initial password err
              (World_record w0 (InvokeBrokerMethod "beforeSignIn" initial)) I)
    as (_ & events & Htrace & Hall).
  exists (InvokeBrokerMethod "beforeSignIn" initial :: events).
  split.
  - rewrite Htrace. simpl. by rewrite <- app_assoc.
  - intros a p o [Heq|Hin]%elem_of_cons; [discriminate|].
    rewrite Forall_forall in Hall. by apply (Hall _ Hin a p o).
Qed.

(** [signIn] never authenticates with a session token it was given, unless
    the broker reuses sessions: every authentication call it makes is for
    an account without session token, or on a broker with the capability
    [reuseExistingSession]. *)
Theorem signIn_fresh_session (account : option Account) (password code : value)
    (w : World) :
  ∃ events,
    trace (signIn this account password code w).1 = trace w ++ events
    ∧ Forall (freshSession this) events.
Proof.
  assert (keeps (λ _, True) (freshSession this) (signIn this account password code))
    as Hkeeps; [|by destruct (Hkeeps w I)].
  unfold signIn. destruct account as [initial|]; [|apply keeps_reject].
  case_match; [apply keeps_reject|].
  apply keeps_then; [apply keeps_setAccountObj|]. intros _.
  apply keeps_catch.
  - unfold signIn_attempt.
    apply keeps_then; [by apply keeps_call|]. intros _.
    apply keeps_then; [by apply keeps_emit|]. intros _.
    intros w'. apply keepsAt_then.
    { unfold_mixin. keeps_go; try done; try (by intros ???). }
    intros account Hrun. apply keeps_then.
    { apply keeps_call. intros a p o [= <- _ _].
      destruct (Model.has (account_attrs initial) "sessionToken"
                && negb (hasCapability this "reuseExistingSession")) eqn:Hdiscard.
      - right. unfold discardSessionToken in Hrun. injection Hrun as <-.
        unfold Model.has, Model.get, Model.unset. simpl.
        by rewrite lookup_delete_eq.
      - injection Hrun as <-.
        apply andb_false_iff in Hdiscard as [?|Hcap]; [by right|].
        left. by apply negb_false_iff in Hcap. }
    unfold_mixin. keeps_go; try done; try (by intros ???).
  - intros err. unfold_mixin. keeps_go; try done; try (by intros ???).
Qed.

(** [signIn] leaves the relier as it was, but for its [uid], which it sets
    only on a broker with the capability [allowUidChange]. *)
Theorem signIn_relier_frame (account : option Account) (password code : value)
    (w : World) :
  uidOnly this (relier w) (relier (signIn this account password code w).1).
Proof.
  assert (keeps (uidOnly this (relier w)) (λ _, True)
            (signIn this account password code)) as Hkeeps.
  { unfold_mixin. keeps_go; try done.
    all: match goal with
         | Hinv : uidOnly _ _ (relier ?w'), Hcond : _ && _ = true |- _ =>
             apply andb_true_iff in Hcond as [_ Hcap];
             right; split; [done|];
             destruct Hinv as [-> | (_ & uid & ->)]; [by eexists|];
             eexists; unfold Model.set; by rewrite insert_insert_eq
         end. }
  apply (Hkeeps w). by left.
Qed.

(** The test of the permissions is made on the account the authentication
    call resolved with.  When the relier needs permissions from every
    account that call can resolve with, [signIn] does not complete the
    sign-in itself: it logs no success event, sets no behaviour, invokes
    no broker method but [beforeSignIn], and leaves the relier as it
    was. *)
Theorem signIn_needs_permissions (account : option Account) (password code : value)
    (w : World) :
  (∀ w' account' password' options resolved,
     signInAccountResult this w' account' password' options = inr resolved →
     relierAccountNeedsPermissions this (relier w) resolved = true) →
  relier (signIn this account password code w).1 = relier w
  ∧ ∃ events,
      trace (signIn this account password code w).1 = trace w ++ events
      ∧ Forall notCompletion events.
Proof.
  intros Hneeds.
  assert (keeps (λ r, r = relier w) notCompletion
            (signIn this account password code)) as Hkeeps;
    [|by apply (Hkeeps w)].
  unfold signIn. destruct account as [initial|]; [|apply keeps_reject].
  case_match; [apply keeps_reject|].
  apply keeps_then; [apply keeps_setAccountObj|]. intros _.
  apply keeps_catch.
  - unfold signIn_attempt.
    apply keeps_then; [by apply keeps_call|]. intros _.
    apply keeps_then; [by apply keeps_emit|]. intros _.
    apply keeps_then.
    { unfold_mixin. keeps_go; try done. }
    intros account' w'. apply keepsAt_then; [by apply keeps_call|].
    intros resolved [= Hresolved]. apply Hneeds in Hresolved.
    unfold_mixin. keeps_go; try done.
    all: match goal with
         | Hinv : relier ?w'' = _,
           Hno : relierAccountNeedsPermissions this (relier ?w'') _ = false |- _ =>
             rewrite Hinv, Hresolved in Hno; discriminate
         end.
  - intros err. unfold_mixin. keeps_go; try done.
Qed.

(** What [signIn] does with a rejection that is neither a blocked sign-in
    nor handled as a bounce, and with a fulfilment: nothing.  It settles
    as its chain settled, in the world the chain left. *)
Theorem signIn_propagates (initial : Account) (password code : value)
    (w w1 : World) (settled : sum AuthError value) :
  isDefault initial
  || (negb (Model.has (account_attrs initial) "sessionToken") && negb (truthy password))
  = false →
  signIn_attempt this initial password code
    (Promise.setAccountObj (Some initial) w).1 = (w1, settled) →
  (∀ err, settled = inl err →
     errorKind err ∉ [THROTTLED; REQUEST_BLOCKED; EMAIL_HARD_BOUNCE; EMAIL_SENT_COMPLAINT]) →
  signIn this (Some initial) password code w = (w1, settled).
Proof.
  intros Hpre Hattempt Hkind. unfold signIn. rewrite Hpre.
  unfold mbind, Promise_bind, Promise.then_ at 1. simpl in *.
  unfold Promise.catch. rewrite Hattempt.
  destruct settled as [err|v]; [|done].
  specialize (Hkind err eq_refl).
  unfold signIn_onRejected, theAccount, AuthErrors.is_.
  unfold mbind, Promise_bind, Promise.then_, Promise.getWorld, mret, Promise_ret,
    Promise.resolve.
  rewrite !bool_decide_false; [done|..]; intros Heq; apply Hkind; rewrite Heq;
    set_solver.
Qed.

(** A rejection with EMAIL_HARD_BOUNCE or EMAIL_SENT_COMPLAINT is turned
    into a navigation to [signin_bounced] with the email of the account,
    and [signIn] is fulfilled. *)
Theorem signIn_bounced (initial : Account) (password code : value)
    (w w1 : World) (err : AuthError) :
  isDefault initial
  || (negb (Model.has (account_attrs initial) "sessionToken") && negb (truthy password))
  = false →
  signIn_attempt this initial password code
    (Promise.setAccountObj (Some initial) w).1 = (w1, inl err) →
  errorKind err = EMAIL_HARD_BOUNCE ∨ errorKind err = EMAIL_SENT_COMPLAINT →
  let account := default initial (accountObj w1) in
  signIn this (Some initial) password code w
  = (World_record w1
       (Navigate "signin_bounced"
          (BouncedData (Model.get (account_attrs account) "email"))),
     inr VUndefined).
Proof.
  intros Hpre Hattempt Hkind account. unfold signIn. rewrite Hpre.
  unfold mbind, Promise_bind, Promise.then_ at 1. simpl in *.
  unfold Promise.catch. rewrite Hattempt.
  unfold signIn_onRejected, theAccount, AuthErrors.is_.
  unfold mbind, Promise_bind, Promise.then_, Promise.getWorld, mret, Promise_ret,
    Promise.resolve.
  fold account.
  destruct Hkind as [-> | ->]; reflexivity.
Qed.

(** The redirect of the model is used once.  After [onSignInSuccess] on a
    verified account the model holds no [redirectTo]: one that was there
    has been unset after being handed to the broker with [setBehavior];
    without one, the model is unchanged and no behaviour is set. *)
Theorem onSignInSuccess_redirectTo (account : Account) (w : World) :
  truthy (Model.get (account_attrs account) "verified") = true →
  let w' := (onSignInSuccess this account w).1 in
  let redirectTo := Model.get (model w) "redirectTo" in
  truthy (Model.get (model w') "redirectTo") = false
  ∧ (truthy redirectTo = true →
     model w' = Model.unset (model w) "redirectTo"
     ∧ SetBehavior (afterSignIn_brokerMethod this) redirectTo
         (default ∅ (afterSignInNavigateData this)) ∈ trace w')
  ∧ (truthy redirectTo = false →
     model w' = model w
     ∧ ∃ events, trace w' = trace w ++ events ∧ Forall notSetBehavior events).
Proof.
  intros Hverified w' redirectTo. subst w'.
  unfold onSignInSuccess. rewrite Hverified. simpl.
  unfold mbind, Promise_bind, Promise.then_, Promise.getWorld, Promise.emit,
    Promise.call, invokeBrokerMethod, Promise.setRelier, Promise.setModel,
    mret, Promise_ret, Promise.resolve, Promise.call.
  simpl.
  destruct (bool_decide _ && hasCapability this "allowUidChange"); simpl;
    fold redirectTo; destruct (truthy redirectTo) eqn:Hredirect; simpl.
  all: split; [try done; unfold Model.get, Model.unset; by rewrite lookup_delete_eq|].
  all: split; [|done || (intros _; split; [done|])]; try done.
  all: try (intros _; split; [done|]; set_solver).
  all: eexists; split; [symmetry; rewrite <- !app_assoc; done|].
  all: repeat constructor; by intros ???.
Qed.

End SignInChain.

(** ** More on the relier: errors of the registry, what [fetch] returns *)

Section RelierFacts.
Context `{Constants} `{VatFormats}.
Variable env : RelierEnv.
Import OAuthRelier.

(** When the client registry rejects the lookup, [fetch] fails and the
    relier is not normalised.  A rejection with INVALID_PARAMETER whose
    first validation key is [client_id] becomes UNKNOWN_CLIENT and carries
    the client id that was looked up; every other rejection is passed on
    as it is. *)
Theorem fetch_registry_rejects (this0 this1 this2 : Attrs) (err : Error) :
  Relier_fetch env this0 = inr this1 →
  fetch_importParams env this1 = inr this2 →
  getClientInfo env (Model.get this2 "clientId") = inl err →
  (kind err = INVALID_PARAMETER →
   (∃ rest, validation_keys err = Some ("client_id" :: rest)) →
   fetch env this0
   = inl {| kind := UNKNOWN_CLIENT; param := None; validation_keys := None;
            client_id := Some (Model.get this2 "clientId") |})
  ∧ (¬ (kind err = INVALID_PARAMETER
        ∧ ∃ rest, validation_keys err = Some ("client_id" :: rest)) →
     fetch env this0 = inl err).
Proof.
  intros Hbase Himport Hinfo.
  unfold fetch. rewrite Hbase. simpl. rewrite Himport. simpl.
  unfold _setupOAuthRPInfo. rewrite Hinfo.
  unfold OAuthErrors.is_, firstValidationKeyIs. split.
  - intros Hkind [rest Hkeys]. rewrite Hkind, Hkeys.
    by rewrite !bool_decide_true.
  - intros Hnot. case_match eqn:Hcond; [|done].
    exfalso. apply Hnot.
    apply andb_true_iff in Hcond as [Hkind%bool_decide_eq_true Hkeys].
    split; [done|].
    destruct (validation_keys err) as [[|first rest]|]; try done.
    apply bool_decide_eq_true in Hkeys as ->. by exists rest.
Qed.

(** [_normalizeScopesAndPermissions] writes [scope] and [permissions] and
    nothing else.  What it writes is a non-empty list of permissions
    without duplicates and, as scope, that list joined by single spaces. *)
Theorem normalize_writes (this this' : Attrs) :
  _normalizeScopesAndPermissions this = inr this' →
  (∀ attr, attr ≠ "scope" → attr ≠ "permissions" →
           Model.get this' attr = Model.get this attr)
  ∧ ∃ permissions,
      Model.get this' "permissions" = VArray permissions
      ∧ Model.get this' "scope" = VStr (JsString.join " " permissions)
      ∧ NoDup permissions
      ∧ permissions ≠ [].
Proof.
  intros Hnormalize. split; [|by apply (normalize_consistent this)].
  unfold _normalizeScopesAndPermissions in Hnormalize.
  destruct (Model.get this "scope") as [| | |scope|]; try discriminate.
  case_bool_decide; [discriminate|]. injection Hnormalize as <-.
  intros attr Hscope Hpermissions. unfold Model.get, Model.set.
  by rewrite !lookup_insert_ne.
Qed.

(** A relier that [fetch] returns with a scope has been normalised: its
    permissions are a non-empty list without duplicates, and its scope is
    that list joined by single spaces. *)
Theorem fetch_scope_consistent (this this' : Attrs) :
  fetch env this = inr this' →
  Model.has this' "scope" = true →
  ∃ permissions,
    Model.get this' "permissions" = VArray permissions
    ∧ Model.get this' "scope" = VStr (JsString.join " " permissions)
    ∧ NoDup permissions
    ∧ permissions ≠ [].
Proof.
  unfold fetch, fetch_normalize, Result_bind.
  destruct (Relier_fetch env this) as [|this1]; [discriminate|].
  destruct (fetch_importParams env this1) as [|this2]; [discriminate|].
  destruct (_setupOAuthRPInfo env this2 _) as [|this3]; [discriminate|].
  destruct (Model.has this3 "scope") eqn:Hhas.
  - intros Hnormalize _. by apply (normalize_consistent this3).
  - intros [= <-] Hhas'. congruence.
Qed.

Lemma transform_loop_absent (data : Attrs) (key : string) (rule : Vat.Rule)
    (rest : Schema) (result : Attrs) :
  Model.get data key = VUndefined →
  Transform.transform_loop data ((key, rule) :: rest) result
  = if Vat.isRequired rule
    then inl (OAuthErrors.toMissingParameterError key)
    else Transform.transform_loop data rest result.
Proof. intros Hget. simpl. by rewrite Hget. Qed.

Lemma transform_loop_present (data : Attrs) (key : string) (rule : Vat.Rule)
    (rest : Schema) (result : Attrs) (raw : string) :
  Model.get data key = VStr raw →
  Transform.transform_loop data ((key, rule) :: rest) result
  = if Vat.test rule (VStr raw)
    then Transform.transform_loop data rest
           (<[default key (Vat.renamedTo rule) := Vat.coerce rule (VStr raw)]> result)
    else inl (OAuthErrors.toInvalidParameterError key).
Proof. intros Hget. simpl. by rewrite Hget. Qed.

(** A verification link opened without a session context: the [service]
    parameter of the link is all the relier has.  If the flow is set up,
    that parameter is both the client id and the service of the relier;
    without the parameter the set-up fails with MISSING_PARAMETER on
    [client_id].  (The schema transform is the one of section 4.1.) *)
Theorem setupVerificationFlow_without_session (this : Attrs) :
  session_oauth env = None →
  (searchParams env !! "service" = None →
   _setupVerificationFlow env this
   = inl (OAuthErrors.toMissingParameterError "client_id"))
  ∧ ∀ this', _setupVerificationFlow env this = inr this' →
     ∃ service,
       searchParams env !! "service" = Some service
       ∧ Model.get this' "clientId" = VStr service
       ∧ Model.get this' "service" = VStr service.
Proof.
  intros Hsession. unfold _setupVerificationFlow. rewrite Hsession.
  set (param := getSearchParam env "service").
  set (resumeObj := Model.set (Model.set ∅ "client_id" param) "service" param).
  assert (∀ key, key ≠ "client_id" → key ≠ "service" →
                 Model.get resumeObj key = VUndefined) as Hother.
  { intros key ??. unfold resumeObj, Model.get, Model.set.
    by rewrite !lookup_insert_ne, lookup_empty. }
  assert (Model.get resumeObj "client_id" = param) as Hclient.
  { unfold resumeObj, Model.get, Model.set.
    by rewrite lookup_insert_ne, lookup_insert_eq. }
  assert (Model.get resumeObj "service" = param) as Hservice.
  { unfold resumeObj, Model.get, Model.set. by rewrite lookup_insert_eq. }
  unfold Transform.transformUsingSchema, VERIFICATION_INFO_SCHEMA.
  rewrite !transform_loop_absent by (by apply Hother).
  change (Vat.isRequired (Vat.renameTo "accessType" Vat.accessType)) with false.
  change (Vat.isRequired (Vat.min 1 Vat.string)) with false.
  cbv iota.
  unfold param, getSearchParam in *.
  destruct (searchParams env !! "service") as [service|].
  - split; [done|]. intros this'.
    rewrite (transform_loop_present _ _ _ _ _ service) by done.
    destruct (Vat.test _ (VStr service)); [|discriminate].
    rewrite !transform_loop_absent by (by apply Hother).
    change (Vat.isRequired Vat.prompt) with false.
    change (Vat.isRequired (Vat.renameTo "redirectUri" Vat.url)) with false.
    change (Vat.isRequired (Vat.min 1 Vat.string)) with false.
    cbv iota.
    rewrite (transform_loop_present _ _ _ _ _ service) by done.
    destruct (Vat.test _ (VStr service)); [|discriminate].
    rewrite !transform_loop_absent by (by apply Hother).
    change (Vat.isRequired (Vat.min 1 Vat.string)) with false.
    cbv iota. unfold Result_bind. intros [= <-].
    exists service. split; [done|].
    unfold Model.get, Model.setAll.
    change (default "client_id" (Vat.renamedTo
              (Vat.renameTo "clientId" (Vat.required Vat.clientId))))
      with "clientId".
    change (default "service" (Vat.renamedTo Vat.clientId)) with "service".
    split.
    + erewrite lookup_union_Some_l; [done|].
      by rewrite lookup_insert_ne, lookup_insert_eq.
    + erewrite lookup_union_Some_l; [done|]. by rewrite lookup_insert_eq.
  - split; [|intros this']; rewrite transform_loop_absent by done; done.
Qed.

End RelierFacts.

(** ** More on the three helpers *)

Section HelperFacts.

(** Joining and splitting again: a non-empty list of tokens, joined by
    single spaces, is read back as the list without its duplicates. *)
Theorem scopeStrToArray_join_uniq (l : list string) :
  l ≠ [] → Forall isToken l →
  scopeStrToArray (JsString.join " " l) = Underscore.uniq l.
Proof.
  intros Hne Htokens. unfold scopeStrToArray.
  rewrite bool_decide_true by (by apply trim_join_tokens).
  unfold JsString.split_whitespace. by rewrite split_join.
Qed.

(** Expanding twice is expanding once, for an expansion list that does not
    name the token it replaces. *)
Theorem replaceItemInArray_idempotent (array : list string) (item : string)
    (replaceWith : list string) :
  item ∉ replaceWith →
  replaceItemInArray (replaceItemInArray array item replaceWith) item replaceWith
  = replaceItemInArray array item replaceWith.
Proof.
  intros Hnot. apply replaceItemInArray_absent. intros Hin.
  apply replaceItemInArray_elem in Hin. naive_solver.
Qed.

End HelperFacts.

(** ** The further properties on the sample configuration *)

Section FurtherExamples.
Import OAuthRelier SignInMixin.

Lemma wantsKeys_invalid_redirect_example :
  let this := Sample.keyRelier "https://example.org/elsewhere" in
  ScopedKeys.wantsKeys (Some Sample.config) this
  = inl (Thrown_Error "Invalid redirect parameter").
Proof.
  intros this.
  apply (wantsKeys_invalid_redirect_iff Sample.config this
           "profile https://identity.mozilla.com/apps/oldsync");
    [reflexivity..|].
  exists "https://identity.mozilla.com/apps/oldsync". split.
  - apply (bool_decide_unpack _). vm_compute. exact I.
  - intros (uris & Huris & Hinc). vm_compute in Huris.
    injection Huris as <-. vm_compute in Hinc. discriminate.
Defined.

Lemma fetch_registry_rejects_example :
  let params := [("client_id", "0123456789abcdef"); ("scope", "profile");
                 ("redirect_uri", "https://123done.org/api/oauth")] in
  Sample.fetch params None
  = inl {| kind := UNKNOWN_CLIENT; param := None; validation_keys := None;
           client_id := Some (VStr "0123456789abcdef") |}.
Proof.
  intros params. set (env := Sample.relierEnv params None).
  destruct (@fetch_registry_rejects Sample.constants Sample.formats env
              defaults defaults
              (Result_value ∅ (@fetch_importParams Sample.formats env defaults))
              {| kind := INVALID_PARAMETER; param := None;
                 validation_keys := Some ["client_id"]; client_id := None |})
    as [Hunknown _].
  - reflexivity.
  - apply Result_value_ok. vm_compute. reflexivity.
  - reflexivity.
  - unfold Sample.fetch. fold env. rewrite Hunknown; [|reflexivity|by eexists].
    vm_compute. reflexivity.
Defined.

Lemma normalize_writes_example :
  let this := Sample.relierWith false VNull "openid secret" in
  let this' := Result_value ∅ (Sample.normalize this) in
  Sample.normalize this = inr this'
  ∧ Model.get this' "clientId" = Model.get this "clientId".
Proof.
  intros this this'.
  assert (Sample.normalize this = inr this') as Hnormalize
    by (apply Result_value_ok; vm_compute; reflexivity).
  split; [exact Hnormalize|].
  by apply (@normalize_writes Sample.constants this this' Hnormalize).
Defined.

Lemma fetch_scope_consistent_example :
  let this' := Result_value ∅ (Sample.fetch Sample.params None) in
  Sample.fetch Sample.params None = inr this'
  ∧ ∃ permissions,
      Model.get this' "permissions" = VArray permissions
      ∧ Model.get this' "scope" = VStr (JsString.join " " permissions)
      ∧ NoDup permissions
      ∧ permissions ≠ [].
Proof.
  intros this'.
  assert (Sample.fetch Sample.params None = inr this') as Hfetch
    by (apply Result_value_ok; vm_compute; reflexivity).
  split; [exact Hfetch|].
  apply (@fetch_scope_consistent Sample.constants Sample.formats
           (Sample.relierEnv Sample.params None) defaults this' Hfetch).
  vm_compute. reflexivity.
Defined.

Lemma setupVerificationFlow_without_session_example :
  let env := Sample.relierEnv [("code", "c0ffee"); ("service", "dcdb5ae7add825d2")] None in
  let this' := Result_value ∅ (@_setupVerificationFlow Sample.formats env defaults) in
  ∃ service,
    searchParams env !! "service" = Some service
    ∧ Model.get this' "clientId" = VStr service
    ∧ Model.get this' "service" = VStr service.
Proof.
  intros env this'.
  destruct (@setupVerificationFlow_without_session Sample.formats env defaults eq_refl)
    as [_ Hsetup].
  apply Hsetup. apply Result_value_ok. vm_compute. reflexivity.
Defined.

Lemma scopeStrToArray_join_uniq_example :
  scopeStrToArray (JsString.join " " ["openid"; "profile"; "openid"])
  = Underscore.uniq ["openid"; "profile"; "openid"].
Proof.
  apply scopeStrToArray_join_uniq; [done|].
  repeat constructor; vm_compute; discriminate.
Defined.

Lemma replaceItemInArray_idempotent_example :
  let expansion := @OAUTH_TRUSTED_PROFILE_SCOPE_EXPANSION Sample.constants in
  replaceItemInArray (replaceItemInArray ["profile"; "openid"] "profile" expansion)
    "profile" expansion
  = replaceItemInArray ["profile"; "openid"] "profile" expansion.
Proof.
  intros expansion. apply replaceItemInArray_idempotent.
  apply (bool_decide_unpack _). vm_compute. exact I.
Defined.

Lemma signIn_precondition_example :
  let view := Sample.view [] (λ account, inr account) (inr tt) in
  let account := setAccountAttrs (Sample.account []) ∅ in
  Sample.signIn view (Some account) VNull VUndefined Sample.world
  = (Sample.world, inl (AuthErrors.toError UNEXPECTED_ERROR)).
Proof.
  intros view account. apply signIn_precondition.
  intros a [= <-]. right. split; reflexivity.
Defined.

Lemma signIn_beforeSignIn_rejected_example :
  let err := AuthErrors.toError (OtherAuthError 999) in
  let view := Sample.customView (inl err) false (λ account, inr account) in
  ∃ events,
    trace (Sample.signIn view (Some (Sample.account [])) VNull VUndefined
             Sample.world).1
    = trace Sample.world ++ events
    ∧ ∀ account password options, SignInAccount account password options ∉ events.
Proof.
  intros err view.
  destruct (@signIn_beforeSignIn_rejected Sample.methods Sample.reasons view
              (Sample.account []) VNull VUndefined Sample.world err)
    as [_ Hevents]; [vm_compute; reflexivity|reflexivity|].
  exact Hevents.
Defined.

Lemma signIn_needs_permissions_example :
  let view :=
    Sample.view [] (λ _, inr (Sample.account [("verified", VBool true)])) (inr tt) in
  let settled :=
    Sample.signIn view (Some (Sample.account [])) VNull VUndefined
      Sample.worldUntrusted in
  relier settled.1 = relier Sample.worldUntrusted
  ∧ ∃ events, trace settled.1 = trace Sample.worldUntrusted ++ events
              ∧ Forall notCompletion events.
Proof.
  intros view settled.
  apply (@signIn_needs_permissions Sample.methods Sample.reasons view).
  intros w' account' password' options resolved [= <-].
  vm_compute. reflexivity.
Defined.

Lemma signIn_propagates_example :
  let err := AuthErrors.toError (OtherAuthError 103) in
  let view := Sample.view [] (λ _, inl err) (inr tt) in
  (Sample.signIn view (Some (Sample.account [])) (VStr "password") VUndefined
     Sample.world).2
  = inl err.
Proof.
  intros err view. unfold Sample.signIn.
  rewrite (@signIn_propagates Sample.methods Sample.reasons view (Sample.account [])
             (VStr "password") VUndefined Sample.world
             (@signIn_attempt Sample.methods Sample.reasons view (Sample.account [])
                (VStr "password") VUndefined
                (Promise.setAccountObj (Some (Sample.account [])) Sample.world).1).1
             (inl err)).
  - reflexivity.
  - vm_compute. reflexivity.
  - apply Promise_run_eq. vm_compute. reflexivity.
  - intros err' [= <-]. simpl. set_solver.
Defined.

Lemma signIn_bounced_example :
  let err := AuthErrors.toError EMAIL_HARD_BOUNCE in
  let view := Sample.view [] (λ _, inl err) (inr tt) in
  Sample.run
    (Sample.signIn view (Some (Sample.account [])) (VStr "password") VUndefined)
    Sample.world
  = (["broker.beforeSignIn"; "logFlowEvent attempt signin";
      "account.discardSessionToken"; "user.signInAccount";
      "navigate signin_bounced"],
     inr VUndefined).
Proof.
  intros err view. unfold Sample.run, Sample.signIn.
  rewrite (@signIn_bounced Sample.methods Sample.reasons view (Sample.account [])
             (VStr "password") VUndefined Sample.world
             (@signIn_attempt Sample.methods Sample.reasons view (Sample.account [])
                (VStr "password") VUndefined
                (Promise.setAccountObj (Some (Sample.account [])) Sample.world).1).1
             err).
  - vm_compute. reflexivity.
  - reflexivity.
  - apply Promise_run_eq. vm_compute. reflexivity.
  - by left.
Defined.

Lemma onSignInSuccess_redirectTo_example :
  let view := Sample.view [] (λ account, inr account) (inr tt) in
  let account := Sample.account [("verified", VBool true)] in
  let w' := (Sample.onSignInSuccess view account Sample.worldWithRedirect).1 in
  truthy (Model.get (model Sample.worldWithRedirect) "redirectTo") = true
  ∧ truthy (Model.get (model w') "redirectTo") = false
  ∧ model w' = Model.unset (model Sample.worldWithRedirect) "redirectTo".
Proof.
  intros view account w'.
  destruct (@onSignInSuccess_redirectTo Sample.methods Sample.reasons view account
              Sample.worldWithRedirect eq_refl) as (Hcleared & Hset & _).
  split; [reflexivity|]. split; [exact Hcleared|].
  by apply Hset.
Defined.

End FurtherExamples.

(** ** White space at the ends of a scope string *)

Section EdgeWhitespace.
Import JsString.

Lemma trimStart_changes (s : string) :
  trimStart s ≠ s → ∃ c rest, s = String c rest ∧ WhiteSpace c = true.
Proof.
  destruct s as [|c rest]; [done|]. simpl.
  destruct (WhiteSpace c) eqn:Hc; [|done]. intros _. by exists c, rest.
Qed.

(** A string that ends in white space leaves an empty last piece. *)
Lemma split_loop_trailing (in_sep : bool) (cur s : string) :
  (in_sep = true → cur = "") → trimEnd s ≠ s → "" ∈ split_loop in_sep cur s.
Proof.
  revert in_sep cur. induction s as [|c s IH]; intros in_sep cur Hsep Hend; [done|].
  simpl in *. destruct (WhiteSpace c) eqn:Hc.
  - assert ("" ∈ split_loop true "" s) as Htail.
    { destruct (decide (trimEnd s = s)) as [Heq|Hne]; [|by apply IH].
      rewrite Heq in Hend. destruct s; [simpl; set_solver|done]. }
    destruct in_sep; [by rewrite Hsep|]. by apply list_elem_of_further.
  - apply IH; [done|]. intros Heq. rewrite Heq in Hend.
    by destruct s.
Qed.

(** The empty token.  For a scope string that is not blank,
    [scopeStrToArray] returns the empty string among the permissions
    exactly when the string begins or ends with white space; when it does
    neither, every permission is a token. *)
Theorem scopeStrToArray_empty_token (scopes : string) :
  trim scopes ≠ "" →
  ("" ∈ scopeStrToArray scopes ↔ trimStart scopes ≠ scopes ∨ trimEnd scopes ≠ scopes)
  ∧ (trimStart scopes = scopes → trimEnd scopes = scopes →
     Forall isToken (scopeStrToArray scopes)).
Proof.
  intros Hblank. split; [|apply scopeStrToArray_tokens].
  split.
  - intros Hin.
    destruct (decide (trimStart scopes = scopes)) as [Hstart|]; [|by left].
    destruct (decide (trimEnd scopes = scopes)) as [Hend|]; [|by right].
    pose proof (scopeStrToArray_tokens scopes Hstart Hend) as Htokens.
    rewrite Forall_forall in Htokens. by destruct (Htokens "" Hin).
  - intros Hedge. unfold scopeStrToArray.
    rewrite bool_decide_true by (by rewrite length_zero_empty).
    apply uniq_elem. unfold split_whitespace.
    destruct Hedge as [Hstart|Hend].
    + apply trimStart_changes in Hstart as (c & rest & -> & Hc).
      simpl. rewrite Hc. apply list_elem_of_here.
    + by apply split_loop_trailing.
Qed.

End EdgeWhitespace.

Lemma scopeStrToArray_empty_token_example :
  "" ∈ scopeStrToArray "openid profile ".
Proof.
  apply (scopeStrToArray_empty_token "openid profile "); [discriminate|].
  right. discriminate.
Defined.

(** ** The scope the relier holds *)

Section TrimFacts.
Import JsString.










End TrimFacts.

Section StoredScope.
Context `{Constants} `{VatFormats}.
Variable env : RelierEnv.
Import OAuthRelier.












End StoredScope.

Section StepOne.
Import JsString.


End StepOne.


